(** * Aries: Google Cloud Storage objects as folders and seekable streams

    A shallow embedding of [Aries/gcp/storage.py]: the destination rules of
    [GSObject.copy] and the buffered stream [GSFile] (seek, read, write,
    flush, close, the context manager and the gzip peek), over an explicit
    model of the two collaborators the code talks to: one object of a
    bucket and the local temporary files.

    Beside it: [delete], [copy] and [move] over the objects of the
    buckets, the string methods of [Aries/strings.py] ([AString] and
    [FileName]) and the URLs of [WebAPI] in [Aries/web.py]. *)

From Stdlib Require Import ZArith List Lia Bool String Ascii.
From Stdlib Require Import Init.Byte.
From stdpp Require Import base gmap list strings.

Local Open Scope Z_scope.

(** * Python values, exceptions and the effect monad *)

Inductive exn : Type :=
| ValueError
| TypeError
| OSError
| OverflowError
| UnicodeDecodeError
| FileNotFoundError
| ServiceError          (* an error answer of the storage service *)
| OtherError (n : nat). (* any exception raised by client code *)

Inductive outcome (A : Type) : Type :=
| Return (a : A)
| Raise (e : exn).
Arguments Return {A} a.
Arguments Raise {A} e.

(** What [read] hands back: [None], a bytes object (the ranged GET), or the
    [str] a text-mode file object decodes, as the list of its code
    points. *)
Inductive pyval : Type :=
| PyNone
| PyBytes (b : list byte)
| PyStr (text : list N).

Definition len (b : list byte) : Z := Z.of_nat (length b).

(** Truth value of an optional bytes object ([if self.__buffer:]) and of an
    optional integer ([if not size:], [if end:]). *)
Definition truthy_bytes (b : option (list byte)) : bool :=
  match b with
  | None => false
  | Some l => negb (len l =? 0)
  end.

Definition truthy_int (z : option Z) : bool :=
  match z with
  | None => false
  | Some n => negb (n =? 0)
  end.

(** * [GSObject]: prefixes and the destination of [copy] *)

Module GSObject.

Local Open Scope string_scope.

(** ** Python's string methods *)

(** [s.startswith(p)] *)
Fixpoint startswith (s p : string) {struct p} : bool :=
  match p with
  | EmptyString => true
  | String c p' =>
      match s with
      | EmptyString => false
      | String d s' => Ascii.eqb d c && startswith s' p'
      end
  end.

(** [s.endswith(p)]: some tail of [s] is [p]. *)
Fixpoint endswith (s p : string) : bool :=
  String.eqb s p ||
  match s with
  | EmptyString => false
  | String _ s' => endswith s' p
  end.

(** [s[n:]] *)
Fixpoint skip (n : nat) (s : string) : string :=
  match n, s with
  | O, _ => s
  | S n', String _ s' => skip n' s'
  | S _, EmptyString => EmptyString
  end.

(** [s.replace(old, new, 1)]: the first occurrence of [old], scanning from
    the left, is replaced by [new]; without an occurrence [s] is
    returned. *)
Fixpoint replace (s old new : string) : string :=
  if startswith s old then new +:+ skip (String.length old) s
  else
    match s with
    | EmptyString => EmptyString
    | String c s' => String c (replace s' old new)
    end.

(** [s.find(p)] as the text before and after the first occurrence. *)
Fixpoint partition (s p : string) : option (string * string) :=
  if startswith s p then Some (EmptyString, skip (String.length p) s)
  else
    match s with
    | EmptyString => None
    | String c s' =>
        match partition s' p with
        | Some (a, b) => Some (String c a, b)
        | None => None
        end
    end.

Record GSObject : Type := {
  uri : string;
  hostname : string;
  path : string;
  prefix : string
}.

Record StorageObject : Type := mkStorageObject {
  so_uri : string;
  so_hostname : string;
  so_path : string
}.

(** Modelled from the spec: the constructor of the base class
    [StorageObject] ([Aries/storage.py], not among the sources), the
    spec's PathResolver.  A URI [scheme://bucket/path] is cut after the
    scheme; the host runs to the next separator and the path is the
    remainder, separator included. *)
Definition StorageObject_init (u : string) : StorageObject :=
  let rest := match partition u "://" with
              | Some (_, r) => r
              | None => u
              end in
  match partition rest "/" with
  | Some (h, p) => mkStorageObject u h ("/" +:+ p)
  | None => mkStorageObject u rest ""
  end.

(** [s.rstrip("/")] *)
Fixpoint rstrip_sep (s : string) : string :=
  match s with
  | EmptyString => EmptyString
  | String c s' =>
      match rstrip_sep s' with
      | EmptyString => if Ascii.eqb c "/" then EmptyString else String c EmptyString
      | r => String c r
      end
  end.

(** The text after the last separator. *)
Fixpoint last_component (s : string) : string :=
  match s with
  | EmptyString => EmptyString
  | String c s' =>
      match partition s' "/" with
      | Some _ => last_component s'
      | None => if Ascii.eqb c "/" then s' else s
      end
  end.

(** Modelled from the spec: the property [name] of the base class
    [StorageObject] ([Aries/storage.py], not among the sources), the
    spec's base name of a location: the last component of the path, a
    trailing separator not counted. *)
Definition name (self : GSObject) : string :=
  last_component (rstrip_sep (path self)).

(** [GSObject.__init__]: the prefix is the path without its leading
    separator. *)
Definition __init__ (gs_path : string) : GSObject :=
  let so := StorageObject_init gs_path in
  {| uri := so_uri so;
     hostname := so_hostname so;
     path := so_path so;
     prefix := if startswith (so_path so) "/" then skip 1 (so_path so)
               else so_path so |}.

(** [GSFolder.__init__]: a folder's prefix ends with the separator, unless
    it is the bucket root. *)
Definition GSFolder (gs_path : string) : GSObject :=
  let o := __init__ gs_path in
  {| uri := uri o; hostname := hostname o; path := path o;
     prefix := if negb (String.eqb (prefix o) "") && negb (endswith (prefix o) "/")
               then prefix o +:+ "/" else prefix o |}.

Definition bucket_name (self : GSObject) : string := hostname self.

(** [blobs()]: the keys of the bucket that start with the prefix. *)
Definition blobs (self : GSObject) (bucket : list string) : list string :=
  filter (fun k => startswith k (prefix self) = true) bucket.

(** The destination path [to] as [copy] rewrites it before it builds
    [destination = GSObject(to)]. *)
Definition copy_to (self : GSObject) (to : string) : string :=
  let to :=
    if String.eqb (prefix (__init__ to)) "" && negb (endswith to "/")
    then to +:+ "/" else to in
  if endswith (prefix self) "/" then
    if endswith to "/" then to +:+ name self +:+ "/"
    else to +:+ "/"
  else
    if endswith to "/" then to +:+ name self
    else to.

(** One [copy_blob(blob, destination.bucket, new_name)] of the batch. *)
Record copy_blob : Type := {
  blob : string;
  destination_bucket : string;
  new_name : string
}.

(** [copy(to)] over the keys of the source bucket: the calls of the batch,
    in the order of the listing. *)
Definition copy (self : GSObject) (to : string) (bucket : list string)
  : list copy_blob :=
  let destination := __init__ (copy_to self to) in
  let source_files := blobs self bucket in
  omap (fun blob_name =>
          let new_name := replace blob_name (prefix self) (prefix destination) in
          if String.eqb new_name blob_name then None
          else Some {| blob := blob_name;
                       destination_bucket := bucket_name destination;
                       new_name := new_name |})
       source_files.

(** The keys of the bucket the repository's tests run on. *)
Definition aries_test : list string :=
  [ "file_in_root.txt"; "test_folder"; "test_folder/";
    "test_folder/file_in_folder.txt"; "test_folder/test_subfolder/";
    "test_folder/test_subfolder/file_in_subfolder.txt" ].

End GSObject.

(** * [GSFile]: the collaborators, the remote object and the local files *)

Inductive request : Type :=
| GET (start : Z) (end_ : option Z)   (* download_as_string(start, end) *)
| DOWNLOAD                            (* download_to_file *)
| PUT (content : list byte).          (* upload_from_filename *)

(** [remote] is the object under the stream's key ([None]: no such
    object), [upload_ok] tells whether the service accepts uploads,
    [files] is the local file system (temporary files are named by
    positive numbers; a file takes any number of bytes the offset type
    allows) and [requests] logs the transfers of data asked of the
    service, latest first.

    [decode] is the text-mode reader of the platform.  For the bytes of a
    file, a position and a size it gives what [f.seek(position)],
    [f.read(size)] and [f.tell()] do in a row on a file opened with
    [open(path)]: the exception raised, or the text read and the answer of
    [tell].  The encoding is the one of the locale and the newline mode is
    the universal one, so what happens to bytes outside ASCII and to
    carriage returns is the platform's: the model leaves it to the
    world. *)
Record World : Type := {
  remote : option (list byte);
  upload_ok : bool;
  files : gmap positive (list byte);
  requests : list request;
  decode : list byte -> Z -> option Z -> outcome (list N * Z)
}.

(** The largest offset of a file: positions are held in a signed 64-bit
    integer. *)
Definition max_offset : Z := 2 ^ 63 - 1.

(** ** Plain text *)

(** ASCII bytes other than the carriage return: every encoding that
    extends ASCII reads them as the characters of the same number, and the
    universal newline mode leaves them alone. *)
Definition plain_byte (x : byte) : bool :=
  (Byte.to_N x <? 128)%N && negb (Byte.to_N x =? 13)%N.

Definition plain (b : list byte) : bool := forallb plain_byte b.

Definition text_of (b : list byte) : list N := Byte.to_N <$> b.

(** The bytes a read of [size] at [pos] covers when every character is one
    byte: [size] of them, all the rest when [size] is [None] or
    negative. *)
Definition slice (c : list byte) (pos : Z) (size : option Z) : list byte :=
  let rest := drop (Z.to_nat pos) c in
  match size with
  | None => rest
  | Some n => if n <? 0 then rest else take (Z.to_nat n) rest
  end.

(** A reader does the expected on plain text: the characters are the
    bytes, and [tell] counts them. *)
Definition reads_plain_text (w : World) : Prop :=
  forall c pos size,
    plain c = true -> 0 <= pos <= max_offset ->
    decode w c pos size
    = Return (text_of (slice c pos size), pos + len (slice c pos size)).

(** The reader of the sample worlds: it reads plain text and refuses
    everything else. *)
Definition ascii_reader (c : list byte) (pos : Z) (size : option Z)
  : outcome (list N * Z) :=
  if max_offset <? pos then Raise OverflowError
  else if negb (plain c) then Raise UnicodeDecodeError
  else Return (text_of (slice c pos size), pos + len (slice c pos size)).

Module GSFile.

(** The private attributes of a [GSFile].  The blob handle [__blob] is
    [None] until [self.blob] is first used; of the handle the model keeps
    the [size] it holds: the size of the object when the handle was made
    ([None] when there was no object), replaced by each upload through the
    handle and by nothing else. *)
Record GSFile : Type := {
  __blob : option (option Z);
  __offset : Z;
  __closed : bool;
  __buffer : option (list byte);
  __buffer_offset : option Z;
  __temp_file : option positive;
  __gz : option bool
}.

Record State : Type := { self : GSFile; world : World }.

Definition M (A : Type) : Type := State -> outcome A * State.

#[global] Instance M_ret : MRet M := fun A a s => (Return a, s).
#[global] Instance M_bind : MBind M := fun A B k m s =>
  match m s with
  | (Return a, s1) => k a s1
  | (Raise e, s1) => (Raise e, s1)
  end.

Definition raise {A : Type} (e : exn) : M A := fun s => (Raise e, s).

(** [try: body finally: fin]: [fin] runs on both paths; an exception of
    [fin] replaces the one of [body]. *)
Definition try_finally {A : Type} (body : M A) (fin : M unit) : M A :=
  fun s =>
    let (r, s1) := body s in
    match fin s1 with
    | (Return _, s2) => (r, s2)
    | (Raise e, s2) => (Raise e, s2)
    end.

Definition attr {A : Type} (f : GSFile -> A) : M A :=
  fun s => (Return (f (self s)), s).
Definition assign (f : GSFile -> GSFile) : M unit :=
  fun s => (Return tt, {| self := f (self s); world := world s |}).
Definition ask {A : Type} (f : World -> A) : M A :=
  fun s => (Return (f (world s)), s).
Definition update (f : World -> World) : M unit :=
  fun s => (Return tt, {| self := self s; world := f (world s) |}).

Definition with_blob (v : option (option Z)) (g : GSFile) : GSFile :=
  {| __blob := v; __offset := __offset g; __closed := __closed g;
     __buffer := __buffer g; __buffer_offset := __buffer_offset g;
     __temp_file := __temp_file g; __gz := __gz g |}.
Definition with_offset (v : Z) (g : GSFile) : GSFile :=
  {| __blob := __blob g; __offset := v; __closed := __closed g; __buffer := __buffer g;
     __buffer_offset := __buffer_offset g; __temp_file := __temp_file g;
     __gz := __gz g |}.
Definition with_closed (v : bool) (g : GSFile) : GSFile :=
  {| __blob := __blob g; __offset := __offset g; __closed := v; __buffer := __buffer g;
     __buffer_offset := __buffer_offset g; __temp_file := __temp_file g;
     __gz := __gz g |}.
Definition with_buffer (v : option (list byte)) (g : GSFile) : GSFile :=
  {| __blob := __blob g; __offset := __offset g; __closed := __closed g; __buffer := v;
     __buffer_offset := __buffer_offset g; __temp_file := __temp_file g;
     __gz := __gz g |}.
Definition with_buffer_offset (v : option Z) (g : GSFile) : GSFile :=
  {| __blob := __blob g; __offset := __offset g; __closed := __closed g; __buffer := __buffer g;
     __buffer_offset := v; __temp_file := __temp_file g; __gz := __gz g |}.
Definition with_temp_file (v : option positive) (g : GSFile) : GSFile :=
  {| __blob := __blob g; __offset := __offset g; __closed := __closed g; __buffer := __buffer g;
     __buffer_offset := __buffer_offset g; __temp_file := v; __gz := __gz g |}.
Definition with_gz (v : option bool) (g : GSFile) : GSFile :=
  {| __blob := __blob g; __offset := __offset g; __closed := __closed g; __buffer := __buffer g;
     __buffer_offset := __buffer_offset g; __temp_file := __temp_file g;
     __gz := v |}.

Definition with_remote (v : option (list byte)) (w : World) : World :=
  {| remote := v; upload_ok := upload_ok w; files := files w;
     requests := requests w; decode := decode w |}.
Definition with_files (v : gmap positive (list byte)) (w : World) : World :=
  {| remote := remote w; upload_ok := upload_ok w; files := v;
     requests := requests w; decode := decode w |}.
Definition log (r : request) (w : World) : World :=
  {| remote := remote w; upload_ok := upload_ok w; files := files w;
     requests := r :: requests w; decode := decode w |}.

(** ** Local file objects *)

Inductive open_mode : Type :=
| mode_r          (* open(path): text mode, reading *)
| mode_w_plus_b.  (* open(path, 'w+b'): binary, truncating *)

Record file : Type := { f_name : positive; f_pos : Z; f_text : bool }.

(** Writing [b] at position [pos] of a file holding [c]: the bytes under
    the write are replaced, a gap past the end is filled with zeros. *)
Definition pwrite (c : list byte) (pos : nat) (b : list byte) : list byte :=
  take pos c ++ replicate (pos - length c)%nat x00 ++ b
    ++ drop (pos + length b)%nat c.

(** [NamedTemporaryFile(delete=False)]: a new empty file under a name not
    in use. *)
Definition NamedTemporaryFile : M file :=
  fun s =>
    let p := fresh (dom (files (world s))) in
    (Return {| f_name := p; f_pos := 0; f_text := false |},
     {| self := self s;
        world := with_files (<[p := []]> (files (world s))) (world s) |}).

Definition open_ (name : positive) (mode : open_mode) : M file :=
  match mode with
  | mode_r =>
      c ← ask (fun w => files w !! name);
      match c with
      | None => raise FileNotFoundError
      | Some _ => mret {| f_name := name; f_pos := 0; f_text := true |}
      end
  | mode_w_plus_b =>
      update (fun w => with_files (<[name := []]> (files w)) w);;
      mret {| f_name := name; f_pos := 0; f_text := false |}
  end.

(** [f.seek(pos)]: a negative position is refused, and so is, by a binary
    file, one that does not fit the offset type.  The position of a text
    file is handed to the decoder as it is. *)
Definition f_seek (f : file) (pos : option Z) : M file :=
  match pos with
  | None => raise TypeError
  | Some p =>
      if p <? 0 then raise (if f_text f then ValueError else OSError)
      else if negb (f_text f) && (max_offset <? p) then raise OverflowError
      else mret {| f_name := f_name f; f_pos := p; f_text := f_text f |}
  end.

Definition f_write (f : file) (b : list byte) : M file :=
  update (fun w =>
    with_files
      (<[f_name f :=
           pwrite (default [] (files w !! f_name f)) (Z.to_nat (f_pos f)) b]>
         (files w)) w);;
  mret {| f_name := f_name f; f_pos := f_pos f + len b; f_text := f_text f |}.

(** [f.read(size)].  A binary file gives [size] bytes from the position,
    all the rest when [size] is [None] or negative.  A text file gives what
    the decoder of the platform makes of the bytes, or raises its error;
    the position after it is the one [tell] will answer. *)
Definition f_read (f : file) (size : option Z) : M (pyval * file) :=
  c ← ask (fun w => default [] (files w !! f_name f));
  if f_text f then
    d ← ask decode;
    match d c (f_pos f) size with
    | Return (text, pos) =>
        mret (PyStr text,
              {| f_name := f_name f; f_pos := pos; f_text := f_text f |})
    | Raise e => raise e
    end
  else
    let data := slice c (f_pos f) size in
    mret (PyBytes data,
          {| f_name := f_name f; f_pos := f_pos f + len data;
             f_text := f_text f |}).

Definition f_tell (f : file) : Z := f_pos f.

Definition os_unlink (name : positive) : M unit :=
  c ← ask (fun w => files w !! name);
  match c with
  | None => raise FileNotFoundError
  | Some _ => update (fun w => with_files (delete name (files w)) w)
  end.

(** ** The blob of the stream's key *)

(** [self.blob]: the handle is made on first use, by [get_blob], which
    loads the size of the object, or without an object by [bucket.blob],
    which knows no size; later uses find it in [__blob].  The result is
    the size the handle holds. *)
Definition blob : M (option Z) :=
  h ← attr __blob;
  match h with
  | Some sz => mret sz
  | None =>
      sz ← ask (fun w => len <$> remote w);
      assign (with_blob (Some sz));;
      mret sz
  end.

(** [exists()] of a handle asks the service. *)
Definition exists_ : M bool :=
  ask (fun w => match remote w with Some _ => true | None => false end).

(** [self.blob.exists()] *)
Definition blob_exists : M bool := blob;; exists_.

(** [self.blob.size]: the size the handle holds, not a request. *)
Definition blob_size : M (option Z) := blob.

(** The ranged GET: bytes [start] to [end_] inclusive, to the end of the
    object when [end_] is [None]; a range reaching past the object is cut
    at its end.  A range that does not start inside the object, or that
    ends before it starts, is answered with an error. *)
Definition download_as_string (start : Z) (end_ : option Z)
  : M (list byte) :=
  blob;;
  update (log (GET start end_));;
  r ← ask remote;
  match r with
  | None => raise ServiceError
  | Some c =>
      if (0 <=? start) && (start <? len c)
         && match end_ with None => true | Some e => start <=? e end
      then
        mret match end_ with
             | None => drop (Z.to_nat start) c
             | Some e => take (Z.to_nat (e - start + 1))
                              (drop (Z.to_nat start) c)
             end
      else raise ServiceError
  end.

Definition download_to_file (f : file) : M file :=
  blob;;
  update (log DOWNLOAD);;
  r ← ask remote;
  match r with
  | None => raise ServiceError
  | Some c => f_write f c
  end.

(** The upload replaces the whole object by the content of the file, and
    the handle takes the size of what was uploaded. *)
Definition upload_from_filename (name : positive) : M unit :=
  blob;;
  c ← ask (fun w => files w !! name);
  match c with
  | None => raise FileNotFoundError
  | Some content =>
      update (log (PUT content));;
      ok ← ask upload_ok;
      if ok : bool then
        update (with_remote (Some content));;
        assign (with_blob (Some (Some (len content))))
      else raise ServiceError
  end.

(** ** The methods of [GSFile] *)

Definition __init__ : GSFile :=
  {| __blob := None; __offset := 0; __closed := true; __buffer := None;
     __buffer_offset := None; __temp_file := None; __gz := None |}.

(** Modelled from the spec: the attribute [closed] that [write] tests comes
    from the base class [StorageFile] of [Aries/storage.py], which is not
    among the sources.  The spec gives a stream one [closed] flag, set by
    [close] and cleared by [open]; [closed] reads that flag. *)
Definition closed : M bool := attr __closed.

Definition file_size : M (option Z) := blob_size.

(** [__append]: the buffer goes to the temp file.  On first use the file
    is created and the object, if there is one, is downloaded into it,
    which leaves the file position at the end of the download; an
    existing temp file is reopened with ['w+b'] and the position set to
    the buffer's start offset.  Buffers are bytes here, so the branch that
    encodes a [str] buffer is not taken. *)
Definition __append : M unit :=
  buf ← attr __buffer;
  if negb (truthy_bytes buf) then mret tt else
  tf ← attr __temp_file;
  f ← match tf with
      | None =>
          f ← NamedTemporaryFile;
          assign (with_temp_file (Some (f_name f)));;
          e ← blob_exists;
          if e : bool then download_to_file f else mret f
      | Some name =>
          f ← open_ name mode_w_plus_b;
          bo ← attr __buffer_offset;
          f_seek f bo
      end;
  let b := default [] buf in
  f_write f b;;
  assign (with_buffer None);;
  assign (with_buffer_offset None);;
  off ← attr __offset;
  assign (with_offset (off + len b)).

Definition seek (pos : Z) (whence : Z) : M Z :=
  buf ← attr __buffer;
  (if truthy_bytes buf then __append else mret tt);;
  (if whence =? 0 then assign (with_offset pos)
   else if whence =? 1 then
     off ← attr __offset; assign (with_offset (off + pos))
   else if whence =? 2 then
     sz ← file_size;
     match sz with
     | None => raise TypeError
     | Some n => assign (with_offset (n + pos))
     end
   else raise ValueError);;
  attr __offset.

Definition tell : M Z := attr __offset.

(** [read]: with a temp file, the file is opened in text mode and what
    comes back is the [str] its decoder gives, the offset becoming the
    answer of [tell]; without one, a ranged GET of the object, the range
    being cut by the size the handle holds. *)
Definition read (size : option Z) : M pyval :=
  tf ← attr __temp_file;
  match tf with
  | Some name =>
      f ← open_ name mode_r;
      off ← attr __offset;
      f ← f_seek f (Some off);
      '(b, f) ← f_read f size;
      assign (with_offset (f_tell f));;
      mret b
  | None =>
      e ← blob_exists;
      if e : bool then
        sz ← blob_size;
        match sz with
        | None => raise TypeError
        | Some blob_size =>
            off ← attr __offset;
            let end_ :=
              if negb (truthy_int size) then blob_size - 1
              else off + default 0 size - 1 in
            let end_ :=
              if blob_size - 1 <=? end_ then None else Some end_ in
            b ← download_as_string off end_;
            (if truthy_int end_ then assign (with_offset (default 0 end_ + 1))
             else assign (with_offset blob_size));;
            mret (PyBytes b)
        end
      else mret PyNone
  end.

Definition write (b : list byte) : M Z :=
  c ← closed;
  if c : bool then raise ValueError else
  buf ← attr __buffer;
  nb ← match buf with
       | None =>
           off ← attr __offset;
           assign (with_buffer_offset (Some off));;
           assign (with_buffer (Some b));;
           mret b
       | Some old =>
           assign (with_buffer (Some (old ++ b)));;
           mret (old ++ b)
       end;
  let buffer_size := len nb in
  (if 1024 * 1024 <? buffer_size then __append else mret tt);;
  off ← attr __offset;
  assign (with_offset (off + len b));;
  mret (len b).

Definition flush : M unit :=
  __append;;
  tf ← attr __temp_file;
  match tf with
  | Some name => upload_from_filename name
  | None => mret tt
  end.

Definition close : M unit :=
  c ← attr __closed;
  if c : bool then mret tt else
  try_finally flush
    (tf ← attr __temp_file;
     match tf with
     | Some name => os_unlink name;; assign (with_temp_file None)
     | None => mret tt
     end;;
     assign (with_buffer None);;
     assign (with_closed true)).

Definition open : M unit :=
  assign (with_closed false);;
  assign (with_buffer None).

Definition __enter__ : M unit := open.

Definition __exit__ : M unit := close.

(** [binascii.hexlify]: two lower-case hexadecimal digits per byte; it
    takes bytes only. *)
Definition hexdigit (n : N) : byte :=
  match n with
  | 0%N => "0" | 1%N => "1" | 2%N => "2" | 3%N => "3" | 4%N => "4"
  | 5%N => "5" | 6%N => "6" | 7%N => "7" | 8%N => "8" | 9%N => "9"
  | 10%N => "a" | 11%N => "b" | 12%N => "c" | 13%N => "d" | 14%N => "e"
  | _ => "f"
  end%byte.

Definition hexlify_bytes (b : list byte) : list byte :=
  flat_map (fun x => [hexdigit (Byte.to_N x / 16); hexdigit (Byte.to_N x mod 16)]) b.

Definition hexlify (v : pyval) : M (list byte) :=
  match v with
  | PyBytes b => mret (hexlify_bytes b)
  | _ => raise TypeError
  end.

#[global] Instance byte_eq_dec : EqDecision byte := Byte.byte_eq_dec.

(** [is_gz]: the early [return False] and the final [return self.__gz]
    are the two results of the uncached branch. *)
Definition is_gz : M bool :=
  gz ← attr __gz;
  match gz with
  | Some r => mret r
  | None =>
      sz ← blob_size;
      match sz with
      | None => raise TypeError
      | Some n =>
          if n <? 2 then mret false else
          offset ← tell;
          seek 0 0;;
          v ← read (Some 2);
          b ← hexlify v;
          seek offset 0;;
          let r := bool_decide (b = ["1"; "f"; "8"; "b"]%byte) in
          assign (with_gz (Some r));;
          mret r
      end
  end.

(** ** Client code and the [with] statement *)

(** The calls a client makes on a stream, and client code around them:
    sequences, [try: ... except: ...] and [raise]. *)
Inductive call : Type :=
| Write (b : list byte)
| Read (size : option Z)
| Seek (pos whence : Z)
| Tell
| Flush
| IsGz
| Close
| Open.

Inductive stmt : Type :=
| Call (c : call)
| Seq (p q : stmt)
| TryExcept (p handler : stmt)
| RaiseStmt (e : exn)
| Pass.

Definition do_call (c : call) : M unit :=
  match c with
  | Write b => write b;; mret tt
  | Read size => read size;; mret tt
  | Seek pos whence => seek pos whence;; mret tt
  | Tell => tell;; mret tt
  | Flush => flush
  | IsGz => is_gz;; mret tt
  | Close => close
  | Open => open
  end.

Fixpoint exec (p : stmt) : M unit :=
  match p with
  | Call c => do_call c
  | Seq p q => exec p;; exec q
  | TryExcept p handler =>
      fun s =>
        match exec p s with
        | (Return _, s1) => (Return tt, s1)
        | (Raise _, s1) => exec handler s1
        end
  | RaiseStmt e => raise e
  | Pass => mret tt
  end.

(** [with GSFile(...) as f: body]: [__enter__] is called, then the body,
    then [__exit__] on both paths; [__exit__] returns [None], so an
    exception of the body is raised again after it. *)
Definition with_ (body : M unit) : M unit :=
  __enter__;; try_finally body __exit__.

(** ** Uploads that do not go through the temp file *)

(** [upload_from_string(data)] of a handle: what it does to the
    object. *)
Definition upload_from_string (data : list byte) : M unit :=
  update (log (PUT data));;
  ok ← ask upload_ok;
  if ok : bool then update (with_remote (Some data))
  else raise ServiceError.

(** [self.blob.upload_from_file(f)]: the content of [f] from its position
    on; the handle takes the size of what was uploaded. *)
Definition blob_upload_from_file (f : file) : M unit :=
  blob;;
  '(v, _) ← f_read f None;
  match v with
  | PyBytes data =>
      upload_from_string data;;
      assign (with_blob (Some (Some (len data))))
  | _ => raise TypeError
  end.

(** [upload_from_file(file_path)]: [os.path.exists], then the file, opened
    with ['rb'], is uploaded through the stream's blob. *)
Definition upload_from_file (file_path : positive) : M bool :=
  c ← ask (fun w => files w !! file_path);
  match c with
  | None => raise FileNotFoundError
  | Some _ =>
      blob_upload_from_file
        {| f_name := file_path; f_pos := 0; f_text := false |};;
      mret true
  end.

(** [create()]: an empty upload unless the object exists.  The test and
    the upload go through a [Blob] object made for the call, not through
    the stream's handle, which stays as it is. *)
Definition create : M unit :=
  e ← exists_;
  if e : bool then mret tt else upload_from_string [].

(** Client code: the writes of [bs], one after the other. *)
Fixpoint write_all (bs : list (list byte)) : stmt :=
  match bs with
  | [] => Pass
  | b :: bs' => Seq (Call (Write b)) (write_all bs')
  end.

End GSFile.

(** * The buckets: [blobs], [delete], [copy] and [move] on stored objects *)

(** The objects of all buckets, by bucket name and key.  The service
    lists keys in its own order and runs a batch as it sees fit; the
    model lists in the order of the map and runs the calls of a batch one
    after the other. *)
Module GSBucket.
Import GSObject.

Local Open Scope string_scope.

(** [bucket.list_blobs(prefix=p)]: the keys of a bucket that start with
    [p]. *)
Definition list_blobs (st : gmap (string * string) (list byte))
    (bucket p : string) : list string :=
  omap (fun '(b, k, _) =>
          if String.eqb b bucket && startswith k p then Some k else None)
       (map_to_list st).

Definition blobs (self : GSObject) (st : gmap (string * string) (list byte))
  : list string :=
  list_blobs st (bucket_name self) (prefix self).

(** [blob.delete()] *)
Definition blob_delete (bucket : string)
    (st : gmap (string * string) (list byte)) (k : string)
  : gmap (string * string) (list byte) :=
  base.delete (bucket, k) st.

Definition delete (self : GSObject) (st : gmap (string * string) (list byte))
  : gmap (string * string) (list byte) :=
  let blobs := blobs self st in
  foldl (blob_delete (bucket_name self)) st blobs.

(** [bucket.copy_blob(blob, destination_bucket, new_name)] *)
Definition run_copy_blob (bucket : string)
    (st : gmap (string * string) (list byte)) (c : copy_blob)
  : gmap (string * string) (list byte) :=
  match st !! (bucket, blob c) with
  | Some v => <[(destination_bucket c, new_name c) := v]> st
  | None => st
  end.

(** [copy(to)]: the calls are deferred to the end of the batch; a batch
    left without a deferred call raises [ValueError], which [delete]
    guards against and [copy] does not. *)
Definition copy (self : GSObject) (to : string)
    (st : gmap (string * string) (list byte))
  : outcome unit * gmap (string * string) (list byte) :=
  let calls :=
    GSObject.copy self to (list_blobs st (bucket_name self) "") in
  match calls with
  | [] => (Raise ValueError, st)
  | _ :: _ => (Return tt, foldl (run_copy_blob (bucket_name self)) st calls)
  end.

(** [move(to)]: [delete] runs when [copy] has returned. *)
Definition move (self : GSObject) (to : string)
    (st : gmap (string * string) (list byte))
  : outcome unit * gmap (string * string) (list byte) :=
  match copy self to st with
  | (Return _, st1) => (Return tt, delete self st1)
  | (Raise e, st1) => (Raise e, st1)
  end.

(** The objects of the example in the documentation of [copy], and one
    object beside the folder. *)
Definition bucket_a : gmap (string * string) (list byte) :=
  {[ ("bucket_a", "a/b/c/d/example.txt") := [x01];
     ("bucket_a", "a/b/c/example.txt") := [x02];
     ("bucket_a", "a/other.txt") := [x03] ]}.

End GSBucket.

(** * [strings.py]: [AString] and [FileName] *)

(** Python's [str] is modelled by [string], one [ascii] per character. *)
Module AString.
Import GSObject.

Local Open Scope string_scope.

(** The argument [s (str/list)] of [prepend] and [append]. *)
Inductive str_or_list : Type :=
| Str (s : string)
| List (l : list string).

(** [delimiter.join(l)] *)
Fixpoint join (delimiter : string) (l : list string) : string :=
  match l with
  | [] => ""
  | [x] => x
  | x :: l' => x +:+ delimiter +:+ join delimiter l'
  end.

Definition prepend (self : string) (s : str_or_list) (delimiter : string)
  : string :=
  let s := match s with
           | List l => l
           | Str x => [x]
           end in
  join delimiter (s ++ [self])%list.

Definition append (self : string) (s : str_or_list) (delimiter : string)
  : string :=
  let s := match s with
           | List l => l
           | Str x => [x]
           end in
  join delimiter ([self] ++ s)%list.

(** [string.digits] and [string.ascii_letters] *)
Definition digits : string := "0123456789".
Definition ascii_letters : string :=
  "abcdefghijklmnopqrstuvwxyzABCDEFGHIJKLMNOPQRSTUVWXYZ".

(** [c in s] for a character [c]. *)
Fixpoint is_in (c : ascii) (s : string) : bool :=
  match s with
  | EmptyString => false
  | String d s' => Ascii.eqb c d || is_in c s'
  end.

(** The comprehension [[c for c in self if ...]], joined by the empty
    string. *)
Fixpoint remove_non_alphanumeric (self : string) : string :=
  match self with
  | EmptyString => EmptyString
  | String c s' =>
      if is_in c digits || is_in c ascii_letters
      then String c (remove_non_alphanumeric s')
      else remove_non_alphanumeric s'
  end.

End AString.

Module FileName.
Import GSObject.

Local Open Scope string_scope.

(** A [FileName] object: the value of the [str] it is, and its two
    attributes. *)
Record FileName : Type := {
  value : string;
  basename : string;
  extension : string
}.

(** [s.rsplit('.', 1)]: a list of one item when [s] has no dot, otherwise
    the text before the last dot and the text after it. *)
Fixpoint rsplit (s : string) : string * option string :=
  match s with
  | EmptyString => (EmptyString, None)
  | String c s' =>
      match rsplit s' with
      | (b, Some e) => (String c b, Some e)
      | (b, None) =>
          if Ascii.eqb c "." then (EmptyString, Some s')
          else (String c b, None)
      end
  end.

Definition __new__ (string_literal : string) : FileName :=
  let name_splits := rsplit string_literal in
  {| value := fst name_splits;
     basename := fst name_splits;
     extension := match snd name_splits with
                  | None => ""
                  | Some e => e
                  end |}.

(** [__str__]: an empty extension is false. *)
Definition __str__ (self : FileName) : string :=
  if negb (String.eqb (extension self) "")
  then basename self +:+ "." +:+ extension self
  else basename self.

Definition to_string (self : FileName) : string := __str__ self.

(** The wrapper [__getattribute__] puts around a method of [AString] that
    returns a string: a new [FileName] is made from the returned text, and
    given the extension of [self]. *)
Definition method (self : FileName) (value : string) : FileName :=
  let filename := __new__ value in
  {| value := FileName.value filename;
     basename := basename filename;
     extension := extension self |}.

(** [append], [prepend] and [remove_non_alphanumeric] as a [FileName] has
    them: the method of [AString] on the value of [self], wrapped. *)
Definition append (self : FileName) (s : AString.str_or_list)
    (delimiter : string) : FileName :=
  method self (AString.append (value self) s delimiter).

Definition prepend (self : FileName) (s : AString.str_or_list)
    (delimiter : string) : FileName :=
  method self (AString.prepend (value self) s delimiter).

Definition remove_non_alphanumeric (self : FileName) : FileName :=
  method self (AString.remove_non_alphanumeric (value self)).

End FileName.

(** * [web.py]: the URLs of [WebAPI] *)

Module WebAPI.
Import GSObject.

Local Open Scope string_scope.

(** Keyword arguments and the dictionaries made of them: keys in the
    order of insertion. *)
Definition dict : Type := list (string * string).

Record WebAPI : Type := {
  kwargs : dict;
  headers : dict;
  base_url : string
}.

Definition __init__ (base_url : string) (kwargs : dict) : outcome WebAPI :=
  if startswith base_url "http://" || startswith base_url "https://"
  then Return {| kwargs := kwargs; headers := []; base_url := base_url |}
  else Raise ValueError.

(** [d[k] = v]: a key of the dictionary keeps its place. *)
Fixpoint setitem (d : dict) (k v : string) : dict :=
  match d with
  | [] => [(k, v)]
  | (k', v') :: d' =>
      if String.eqb k' k then (k', v) :: d' else (k', v') :: setitem d' k v
  end.

(** [d.update(kwargs)] *)
Definition update (d kwargs : dict) : dict :=
  foldl (fun d kv => setitem d (fst kv) (snd kv)) d kwargs.

(** ["?" not in url] *)
Definition no_query (url : string) : bool :=
  negb (AString.is_in "?" url).

Definition append_query_string (url : string) (kwargs : dict) : string :=
  let url :=
    match kwargs with
    | [] => url
    | _ :: _ => if no_query url then url +:+ "?" else url
    end in
  foldl (fun url kv =>
           let url := if no_query url then url +:+ "?" else url in
           url +:+ "&" +:+ fst kv +:+ "=" +:+ snd kv)
        url kwargs.

Definition build_url (self : WebAPI) (url : string) (kwargs : dict)
  : string :=
  let url :=
    if negb (startswith url "http://" || startswith url "https://")
    then base_url self +:+ url else url in
  let query_dict := update (WebAPI.kwargs self) kwargs in
  append_query_string url query_dict.

End WebAPI.

(** * Vocabulary of the statements about strings and URLs *)

Module TextSpec.
Import GSObject.

Local Open Scope string_scope.

(** A letter or a digit, as [remove_non_alphanumeric] tests it. *)
Definition alnum (c : ascii) : bool :=
  AString.is_in c AString.digits || AString.is_in c AString.ascii_letters.

(** What [__str__] writes after the base name. *)
Definition suffix (self : FileName.FileName) : string :=
  if String.eqb (FileName.extension self) "" then ""
  else "." +:+ FileName.extension self.

(** The keywords as [append_query_string] writes them. *)
Definition query (kwargs : WebAPI.dict) : string :=
  foldr (fun kv q => "&" +:+ fst kv +:+ "=" +:+ snd kv +:+ q) "" kwargs.

(** An absolute URL, as [WebAPI] tests it. *)
Definition absolute (url : string) : bool :=
  startswith url "http://" || startswith url "https://".

End TextSpec.

(** * Vocabulary of the statements about the stream *)

Module StreamSpec.
Import GSFile.

(** ** Sample worlds and streams *)

Definition empty_world : World :=
  {| remote := None; upload_ok := true; files := ∅; requests := [];
     decode := ascii_reader |}.

Definition world_with (c : list byte) : World :=
  {| remote := Some c; upload_ok := true; files := ∅; requests := [];
     decode := ascii_reader |}.

(** [GSFile(gs_path)] over a given world. *)
Definition new_stream (w : World) : State := {| self := __init__; world := w |}.

(** ** The write, flush, read sequence *)

Definition roundtrip (b : list byte) : M pyval :=
  open;; write b;; flush;; seek 0 0;; read (Some (len b)).

(** ** The blob handle *)

(** The size [self.blob.size] answers in a state: the one the handle
    holds, or, when the handle is still to be made, the one of the
    object. *)
Definition blob_size_of (s : State) : option Z :=
  match __blob (self s) with
  | Some sz => sz
  | None => len <$> remote (world s)
  end.

(** The handle is in step with the object: it is still to be made, or
    holds the size the object has.  An object written behind the handle,
    by [create] or by another client, leaves it out of step. *)
Definition in_step (s : State) : Prop :=
  blob_size_of s = len <$> remote (world s).

(** The state once [self.blob] has been used. *)
Definition with_handle (s : State) : State :=
  {| self := with_blob (Some (blob_size_of s)) (self s); world := world s |}.

(** ** States of the stream and of its temp file *)

(** The stream's temp file, when it has one, is a file of the local file
    system. *)
Definition temp_file_present (s : State) : Prop :=
  forall p, __temp_file (self s) = Some p -> is_Some (files (world s) !! p).

(** The state after the first [__append] of a stream: the new temp file
    holds the object as downloaded, followed by the buffer. *)
Definition appended_first (s : State) (buf : list byte) : State :=
  let p := fresh (dom (files (world s))) in
  {| self :=
       with_offset (__offset (self s) + len buf)
         (with_buffer_offset None
            (with_buffer None
               (with_temp_file (Some p) (self (with_handle s)))));
     world :=
       match remote (world s) with
       | Some c =>
           log DOWNLOAD
             (with_files (<[p := c ++ buf]> (files (world s))) (world s))
       | None => with_files (<[p := buf]> (files (world s))) (world s)
       end |}.

(** A later [__append] truncates the temp file, moves to the buffer's start
    offset and writes the buffer there. *)
Definition appended_again (s : State) (p : positive) (bo : Z)
    (buf : list byte) : State :=
  {| self :=
       with_offset (__offset (self s) + len buf)
         (with_buffer_offset None (with_buffer None (self s)));
     world :=
       with_files
         (<[p := replicate (Z.to_nat bo) x00 ++ buf]> (files (world s)))
         (world s) |}.

(** What the [finally] block of [close] leaves of a state. *)
Definition cleaned (s : State) : State :=
  {| self := with_closed true (with_buffer None (with_temp_file None (self s)));
     world :=
       match __temp_file (self s) with
       | Some p => with_files (delete p (files (world s))) (world s)
       | None => world s
       end |}.

(** [owns F s]: the local files are [F], plus the stream's temp file when
    it has one. *)
Definition owns (F : gmap positive (list byte)) (s : State) : Prop :=
  match __temp_file (self s) with
  | None => files (world s) = F
  | Some p =>
      F !! p = None /\ is_Some (files (world s) !! p)
      /\ delete p (files (world s)) = F
  end.

(** [tidy F s]: moreover a closed stream has neither temp file nor
    buffer. *)
Definition tidy (F : gmap positive (list byte)) (s : State) : Prop :=
  owns F s /\
  (__closed (self s) = true ->
   __temp_file (self s) = None /\ __buffer (self s) = None).

(** Two states with the same flag, buffer, temp file and local files. *)
Definition same_files (s s' : State) : Prop :=
  __closed (self s') = __closed (self s)
  /\ __buffer (self s') = __buffer (self s)
  /\ __temp_file (self s') = __temp_file (self s)
  /\ files (world s') = files (world s).

(** ** Invariants of a computation *)

Definition keeps (P : State -> Prop) {A : Type} (m : M A) : Prop :=
  forall s, P s -> P (snd (m s)).

(** ** Client code without writes *)

(** Code that never calls [write]. *)
Definition writes_nothing_call (c : call) : bool :=
  match c with
  | Write _ => false
  | _ => true
  end.

Fixpoint writes_nothing (p : stmt) : bool :=
  match p with
  | Call c => writes_nothing_call c
  | Seq p q => writes_nothing p && writes_nothing q
  | TryExcept p h => writes_nothing p && writes_nothing h
  | RaiseStmt _ => true
  | Pass => true
  end.

Definition is_get (r : request) : bool :=
  match r with
  | GET _ _ => true
  | _ => false
  end.

(** From [s] to [s'] nothing was uploaded or stored: same object, same
    local files, no temp file, no buffer, and only ranged GETs sent. *)
Definition quiet (s s' : State) : Prop :=
  remote (world s') = remote (world s)
  /\ files (world s') = files (world s)
  /\ __temp_file (self s') = None /\ __buffer (self s') = None
  /\ exists gets, requests (world s') = gets ++ requests (world s)
                  /\ forallb is_get gets = true.

End StreamSpec.

(** * Properties of [copy] *)

Module CopyProofs.
Import GSObject.

Local Open Scope string_scope.

Lemma append_nil (s : string) : "" +:+ s = s.
Proof. reflexivity. Qed.

Lemma append_cons (c : ascii) (p s : string) :
  String c p +:+ s = String c (p +:+ s).
Proof. reflexivity. Qed.

Lemma startswith_app (p s : string) : startswith (p +:+ s) p = true.
Proof.
  induction p as [|c p IH]; [reflexivity|].
  rewrite append_cons. cbn. rewrite Ascii.eqb_refl. exact IH.
Qed.

Lemma skip_app (p s : string) : skip (String.length p) (p +:+ s) = s.
Proof.
  induction p as [|c p IH]; [destruct s; reflexivity|].
  rewrite append_cons. cbn. exact IH.
Qed.

Lemma startswith_inv (s p : string) :
  startswith s p = true -> s = p +:+ skip (String.length p) s.
Proof.
  revert s. induction p as [|c p IH]; intros s H.
  - destruct s; reflexivity.
  - destruct s as [|d s]; [discriminate|]. cbn in H.
    apply andb_true_iff in H as [Hc Hp]. apply Ascii.eqb_eq in Hc as ->.
    rewrite append_cons. cbn. f_equal. apply IH, Hp.
Qed.

Lemma replace_unfold (s old new : string) :
  replace s old new =
  if startswith s old then new +:+ skip (String.length old) s
  else match s with
       | EmptyString => EmptyString
       | String c s' => String c (replace s' old new)
       end.
Proof. destruct s; reflexivity. Qed.

(** A key that starts with the source prefix gets the destination prefix
    in its place. *)
Lemma replace_prefix (old new rest : string) :
  replace (old +:+ rest) old new = new +:+ rest.
Proof.
  rewrite replace_unfold, startswith_app, skip_app. reflexivity.
Qed.

(** [replace] rewrites the first occurrence: when [old] is found after
    [pre] and at no position before. *)
Lemma replace_first (pre old new post : string) :
  (forall i, (i < String.length pre)%nat ->
             startswith (skip i (pre +:+ old +:+ post)) old = false) ->
  replace (pre +:+ old +:+ post) old new = pre +:+ new +:+ post.
Proof.
  induction pre as [|c pre IH]; intros H.
  - rewrite !append_nil. apply replace_prefix.
  - rewrite !append_cons, replace_unfold.
    pose proof (H 0%nat) as H0. rewrite !append_cons in H0. cbn in H0.
    rewrite H0 by lia. f_equal. apply IH.
    intros i Hi. specialize (H (S i)). rewrite !append_cons in H.
    apply H. cbn. lia.
Qed.

Lemma replace_absent (s old new : string) :
  (forall i, (i <= String.length s)%nat ->
             startswith (skip i s) old = false) ->
  replace s old new = s.
Proof.
  induction s as [|c s IH]; intros H.
  - rewrite replace_unfold. pose proof (H 0%nat) as H0. cbn in H0.
    rewrite H0 by lia. reflexivity.
  - rewrite replace_unfold. pose proof (H 0%nat) as H0. cbn in H0.
    rewrite H0 by lia. f_equal.
    apply IH. intros i Hi. apply (H (S i)). cbn. lia.
Qed.

Lemma endswith_app (s p : string) : endswith (s +:+ p) p = true.
Proof.
  induction s as [|c s IH].
  - rewrite append_nil. destruct p; cbn; [reflexivity|].
    rewrite Ascii.eqb_refl, String.eqb_refl. reflexivity.
  - rewrite append_cons. cbn. rewrite IH. apply orb_true_r.
Qed.

(** The calls of the batch, one by one. *)
Lemma elem_of_copy (self : GSObject) (to : string) (bucket : list string)
    (c : copy_blob) :
  c ∈ copy self to bucket <->
  blob c ∈ bucket
  /\ startswith (blob c) (prefix self) = true
  /\ destination_bucket c = hostname (__init__ (copy_to self to))
  /\ new_name c
     = replace (blob c) (prefix self) (prefix (__init__ (copy_to self to)))
  /\ new_name c <> blob c.
Proof.
  unfold copy, blobs, bucket_name. rewrite list_elem_of_omap. split.
  - intros (k & Hk & Hf). apply list_elem_of_filter in Hk as [Hp Hin].
    destruct (String.eqb _ k) eqn:E; [discriminate|].
    injection Hf as <-. cbn. apply String.eqb_neq in E. auto.
  - intros (Hin & Hp & Hb & Hn & Hne). exists (blob c). split.
    + apply list_elem_of_filter. auto.
    + rewrite <- Hn. apply String.eqb_neq in Hne. rewrite Hne.
      rewrite <- Hb. destruct c; reflexivity.
Qed.

(** What the repository's copy tests expect on their bucket: four objects
    under [copy_test/test_folder/] for a folder copied into a folder, four
    under [copy_test/new_name/] for a rename, five for the bare prefix
    [test_folder], two under the root. *)
Example copy_tests :
  new_name <$> copy (GSFolder "gs://aries_test/test_folder/")
                    "gs://aries_test/copy_test/" aries_test
  = [ "copy_test/test_folder/";
      "copy_test/test_folder/file_in_folder.txt";
      "copy_test/test_folder/test_subfolder/";
      "copy_test/test_folder/test_subfolder/file_in_subfolder.txt" ]
  /\ new_name <$> copy (GSFolder "gs://aries_test/test_folder/")
                       "gs://aries_test/copy_test/new_name" aries_test
     = [ "copy_test/new_name/";
         "copy_test/new_name/file_in_folder.txt";
         "copy_test/new_name/test_subfolder/";
         "copy_test/new_name/test_subfolder/file_in_subfolder.txt" ]
  /\ length (copy (__init__ "gs://aries_test/test_folder")
                  "gs://aries_test/copy_test/" aries_test) = 5%nat
  /\ new_name <$> copy (GSFolder "gs://aries_test/test_folder/test_subfolder")
                       "gs://aries_test" aries_test
     = [ "test_subfolder/"; "test_subfolder/file_in_subfolder.txt" ].
Proof. repeat split. Qed.

(** C2: the destination of [copy] and the new keys.  A destination that
    is a bucket root is treated as if it ended with the separator; a
    folder source (a prefix ending with the separator) copied to a
    destination ending with the separator goes under its own base name;
    copied to a destination without it, the destination gets a separator
    appended (a rename); every listed key is copied under the key with the
    first occurrence of the source prefix replaced by the destination
    prefix, except where that leaves the key unchanged, and as a listed
    key starts with the source prefix, that is the destination prefix
    followed by the rest of the key; and the example of the documentation
    comes out as documented. *)
Theorem copy_destination_and_keys :
  (forall self to,
     prefix (__init__ to) = "" -> endswith to "/" = false ->
     copy_to self to = copy_to self (to +:+ "/")) /\
  (forall self to,
     endswith (prefix self) "/" = true -> endswith to "/" = true ->
     copy_to self to = to +:+ name self +:+ "/") /\
  (forall self to,
     endswith (prefix self) "/" = true -> endswith to "/" = false ->
     prefix (__init__ to) <> "" ->
     copy_to self to = to +:+ "/") /\
  (forall self to bucket c,
     c ∈ copy self to bucket <->
     blob c ∈ bucket
     /\ startswith (blob c) (prefix self) = true
     /\ destination_bucket c = hostname (__init__ (copy_to self to))
     /\ new_name c
        = replace (blob c) (prefix self)
            (prefix (__init__ (copy_to self to)))
     /\ new_name c <> blob c) /\
  (forall self to bucket c,
     c ∈ copy self to bucket ->
     exists rest,
       blob c = prefix self +:+ rest
       /\ new_name c = prefix (__init__ (copy_to self to)) +:+ rest) /\
  (forall pre old new post,
     (forall i, (i < String.length pre)%nat ->
                startswith (skip i (pre +:+ old +:+ post)) old = false) ->
     replace (pre +:+ old +:+ post) old new = pre +:+ new +:+ post) /\
  (forall s old new,
     (forall i, (i <= String.length s)%nat ->
                startswith (skip i s) old = false) ->
     replace s old new = s) /\
  copy (GSFolder "gs://bucket_a/a/b/c/") "gs://bucket_b/x/y/z"
       ["a/b/c/d/example.txt"; "a/b/c/example.txt"]
  = [ {| blob := "a/b/c/d/example.txt"; destination_bucket := "bucket_b";
         new_name := "x/y/z/d/example.txt" |};
      {| blob := "a/b/c/example.txt"; destination_bucket := "bucket_b";
         new_name := "x/y/z/example.txt" |} ].
Proof.
  split; [|split; [|split; [|split; [|split; [|split; [|split]]]]]].
  - intros self to Hroot Hsep. unfold copy_to.
    rewrite Hroot, Hsep, (endswith_app to "/"). cbn [String.eqb andb negb].
    rewrite andb_false_r. reflexivity.
  - intros self to Hsrc Hsep. unfold copy_to.
    rewrite Hsep, andb_false_r, Hsrc, Hsep. reflexivity.
  - intros self to Hsrc Hsep Hroot. unfold copy_to.
    apply String.eqb_neq in Hroot. rewrite Hroot. cbn [andb].
    rewrite Hsrc, Hsep. reflexivity.
  - apply elem_of_copy.
  - intros self to bucket c Hc.
    apply elem_of_copy in Hc as (_ & Hp & _ & Hn & _).
    apply startswith_inv in Hp.
    exists (skip (String.length (prefix self)) (blob c)).
    split; [exact Hp|]. rewrite Hn. rewrite Hp at 1. apply replace_prefix.
  - apply replace_first.
  - apply replace_absent.
  - reflexivity.
Qed.

End CopyProofs.

(** * Properties of the stream *)

Module StreamProofs.
Import GSFile StreamSpec.

Ltac run :=
  unfold __enter__, __exit__, is_gz, close, open, flush, write, seek, read,
    tell, __append, closed, file_size, hexlify, try_finally, blob_exists,
    blob_size, download_as_string, download_to_file, upload_from_filename,
    blob, exists_,
    os_unlink, NamedTemporaryFile, open_, f_seek, f_write, f_read, f_tell,
    attr, assign, ask, update, raise, mbind, mret, M_bind, M_ret; cbn.

(** The same, with [__append] left folded for the lemmas about it. *)
Ltac run_outer :=
  unfold __enter__, __exit__, is_gz, close, open, flush, write, seek, read,
    tell, closed, file_size, hexlify, try_finally, blob_exists,
    blob_size, download_as_string, upload_from_filename,
    blob, exists_,
    os_unlink, open_, f_seek, f_read, f_tell,
    attr, assign, ask, update, raise, mbind, mret, M_bind, M_ret; cbn.

#[local] Arguments truthy_bytes : simpl never.
#[local] Arguments truthy_int : simpl never.

(** Every path of a method: the tests and the optional values it
    branches on, one after the other. *)
Ltac split_paths :=
  repeat (cbn;
          match goal with
          | |- context [if ?b then _ else _] => destruct b
          | |- context [match ?x with Some _ => _ | None => _ end] =>
              destruct x
          | |- context [match ?x with Return _ => _ | Raise _ => _ end] =>
              first [destruct x as [[? ?]|?] | destruct x]
          end).

Ltac break_state s :=
  let g := fresh "g" in
  let w := fresh "w" in
  destruct s as [g w]; destruct g; destruct w; cbn in *; subst.

(** The two cases of a handle in step: made, or still to be made. *)
Ltac handle_cases H :=
  unfold in_step, blob_size_of in H; cbn in H;
  match type of H with
  | context [match ?b with Some _ => _ | None => _ end] =>
      let h := fresh "h" in destruct b as [h|]; [subst h|clear H]
  end.

Lemma len_zero (a : list byte) : len a = 0 <-> a = [].
Proof.
  unfold len. destruct a; cbn; split; intros H;
    try reflexivity; try discriminate; lia.
Qed.

Lemma truthy_bytes_Some (l : list byte) :
  l <> [] -> truthy_bytes (Some l) = true.
Proof.
  intros H. unfold truthy_bytes.
  apply negb_true_iff, Z.eqb_neq. rewrite len_zero. exact H.
Qed.

Lemma pwrite_nil (n : nat) (b : list byte) :
  pwrite [] n b = replicate n x00 ++ b.
Proof.
  unfold pwrite. rewrite take_nil, drop_nil, app_nil_r. cbn.
  rewrite Nat.sub_0_r. reflexivity.
Qed.

Lemma pwrite_end (c b : list byte) :
  pwrite c (length c) b = c ++ b.
Proof.
  unfold pwrite. rewrite firstn_all, Nat.sub_diag. cbn.
  rewrite drop_ge by lia. rewrite app_nil_r. reflexivity.
Qed.

(** ** [__append] *)

Lemma append_idle (s : State) :
  truthy_bytes (__buffer (self s)) = false -> __append s = (Return tt, s).
Proof. intros H. break_state s. run. rewrite H. reflexivity. Qed.

Lemma append_first (s : State) (buf : list byte) :
  __buffer (self s) = Some buf -> buf <> [] ->
  __temp_file (self s) = None ->
  __append s = (Return tt, appended_first s buf).
Proof.
  intros Hb Hne Ht. break_state s. run.
  rewrite (truthy_bytes_Some buf Hne). cbn.
  unfold appended_first, with_handle, blob_size_of; cbn.
  destruct __blob0 as [h|], remote0 as [c|]; cbn;
    rewrite ?lookup_insert_eq; cbn; rewrite ?pwrite_nil; cbn;
    try replace (Z.to_nat (0 + len c)) with (length c)
      by (unfold len; lia);
    rewrite ?pwrite_end, ?insert_insert_eq; reflexivity.
Qed.

Lemma append_again (s : State) (p : positive) (bo : Z) (buf : list byte) :
  __buffer (self s) = Some buf -> buf <> [] ->
  __temp_file (self s) = Some p ->
  __buffer_offset (self s) = Some bo -> 0 <= bo <= max_offset ->
  __append s = (Return tt, appended_again s p bo buf).
Proof.
  intros Hb Hne Ht Ho Hbo. break_state s. run.
  rewrite (truthy_bytes_Some buf Hne). cbn.
  destruct (bo <? 0) eqn:E; [apply Z.ltb_lt in E; lia|]. cbn.
  destruct (max_offset <? bo) eqn:E'; [apply Z.ltb_lt in E'; lia|]. cbn.
  rewrite lookup_insert_eq. cbn. rewrite pwrite_nil, insert_insert_eq.
  reflexivity.
Qed.

(** ** Writing *)

Lemma write_closed (s : State) (b : list byte) :
  __closed (self s) = true -> write b s = (Raise ValueError, s).
Proof. intros H. break_state s. run. reflexivity. Qed.

(** Below the threshold a write only extends the buffer, and the offset
    moves by the length written. *)
Lemma write_buffered (s : State) (b : list byte) :
  __closed (self s) = false ->
  len (default [] (__buffer (self s)) ++ b) <= 1024 * 1024 ->
  fst (write b s) = Return (len b) /\
  __offset (self (snd (write b s))) = __offset (self s) + len b /\
  __buffer (self (snd (write b s)))
    = Some (default [] (__buffer (self s)) ++ b) /\
  world (snd (write b s)) = world s.
Proof.
  intros Hc Hle. break_state s. run_outer.
  destruct __buffer0 as [old|]; cbn in *;
    rewrite (proj2 (Z.ltb_ge _ _) Hle); cbn; auto.
Qed.

(** C3, as the code has it: when a write takes the buffer over 1 MiB,
    [__append] runs inside [write] and adds the length of the whole buffer
    to the offset, and [write] then adds the length of [b] once more.  The
    offset moves by [len buffer + len b], not by [len b]. *)
Theorem write_offset_eager_append (s : State) (b : list byte) :
  __closed (self s) = false ->
  __temp_file (self s) = None ->
  1024 * 1024 < len (default [] (__buffer (self s)) ++ b) ->
  fst (write b s) = Return (len b) /\
  __offset (self (snd (write b s)))
    = __offset (self s) + len (default [] (__buffer (self s)) ++ b) + len b.
Proof.
  intros Hc Ht Hlt.
  assert (Hne : default [] (__buffer (self s)) ++ b <> []).
  { intros E. apply len_zero in E. lia. }
  break_state s. run_outer.
  destruct __buffer0 as [old|]; cbn in *;
    rewrite (proj2 (Z.ltb_lt _ _) Hlt); cbn;
    erewrite append_first by (cbn; eauto); cbn; auto.
Qed.

Lemma write_offset_eager_append_witness :
  let b := replicate (Z.to_nat 1048577) x00 in
  let s := snd (open (new_stream empty_world)) in
  __offset (self s) = 0 /\
  fst (write b s) = Return 1048577 /\
  __offset (self (snd (write b s))) = 2097154.
Proof.
  intros b s.
  assert (Hlen : len b = 1048577).
  { unfold b, len. rewrite length_replicate. lia. }
  destruct (write_offset_eager_append s b) as [H1 H2].
  - reflexivity.
  - reflexivity.
  - change (__buffer (self s)) with (@None (list byte)).
    cbn [default app]. lia.
  - split; [reflexivity|]. rewrite H1, H2.
    change (__buffer (self s)) with (@None (list byte)).
    change (__offset (self s)) with 0.
    cbn [default app]. rewrite Hlen. split; reflexivity.
Defined.

(** ** Seeking *)

Lemma seek_bad_whence_idle (s : State) (pos whence : Z) :
  whence <> 0 -> whence <> 1 -> whence <> 2 ->
  truthy_bytes (__buffer (self s)) = false ->
  seek pos whence s = (Raise ValueError, s).
Proof.
  intros H0 H1 H2 Hb. break_state s. run_outer. rewrite Hb. cbn.
  rewrite (proj2 (Z.eqb_neq _ _) H0), (proj2 (Z.eqb_neq _ _) H1),
    (proj2 (Z.eqb_neq _ _) H2). reflexivity.
Qed.

(** C6, as the code has it: [seek] runs [__append] on a pending buffer
    before it looks at [whence], and [__append] adds the buffer's length to
    the offset.  The call fails with [ValueError], yet the offset has
    moved. *)
Theorem seek_bad_whence_pending (s : State) (pos whence : Z)
    (buf : list byte) :
  whence <> 0 -> whence <> 1 -> whence <> 2 ->
  __buffer (self s) = Some buf -> buf <> [] ->
  __temp_file (self s) = None ->
  fst (seek pos whence s) = Raise ValueError /\
  __offset (self (snd (seek pos whence s))) = __offset (self s) + len buf.
Proof.
  intros H0 H1 H2 Hb Hne Ht. break_state s. run_outer.
  rewrite (truthy_bytes_Some buf Hne).
  erewrite append_first by (cbn; eauto). cbn.
  rewrite (proj2 (Z.eqb_neq _ _) H0), (proj2 (Z.eqb_neq _ _) H1),
    (proj2 (Z.eqb_neq _ _) H2). cbn. auto.
Qed.

Lemma seek_bad_whence_pending_witness :
  let s := snd ((open;; write [x61; x62]) (new_stream empty_world)) in
  __offset (self s) = 2 /\
  fst (seek 0 3 s) = Raise ValueError /\
  __offset (self (snd (seek 0 3 s))) = 4.
Proof.
  intros s.
  destruct (seek_bad_whence_pending s 0 3 [x61; x62]) as [H1 H2];
    try lia; try reflexivity; try discriminate.
  split; [reflexivity|]. split; [exact H1|]. rewrite H2. reflexivity.
Defined.

(** ** Closed streams *)

Lemma flush_idle (s : State) :
  __temp_file (self s) = None -> __buffer (self s) = None ->
  flush s = (Return tt, s).
Proof.
  intros Ht Hb. break_state s. run_outer.
  rewrite append_idle by reflexivity. reflexivity.
Qed.

(** C5 as stated fails on [flush]: on a stream that was never opened,
    [flush] returns without an error. *)
Lemma flush_closed_does_not_raise :
  ~ (forall s : State,
       __closed (self s) = true -> exists e, fst (flush s) = Raise e).
Proof.
  intros H.
  destruct (H (new_stream empty_world) eq_refl) as [e He].
  vm_compute in He. discriminate.
Qed.

(** ** Opening *)

(** C8 as stated fails on the position: a stream that has read five bytes
    before it is opened still stands at offset 5 after [open]. *)
Lemma open_keeps_offset :
  ~ (forall s : State,
       __buffer (self (snd (open s))) = None /\
       __offset (self (snd (open s))) = 0).
Proof.
  intros H.
  destruct (H (snd (read None
                 (new_stream (world_with [x68; x65; x6c; x6c; x6f])))))
    as [_ H5].
  vm_compute in H5. discriminate.
Qed.

(** C8, amended: a new stream is closed, at offset 0, with no buffer and
    no temp file; [open] marks the stream open and drops the pending write
    buffer, and leaves the offset, the buffer's start offset, the temp
    file, the cached gzip flag and the world as they were. *)
Theorem init_closed_open_clears_buffer :
  __closed __init__ = true /\ __offset __init__ = 0 /\
  __buffer __init__ = None /\ __temp_file __init__ = None /\
  forall s : State,
    open s =
      (Return tt,
       {| self := with_buffer None (with_closed false (self s));
          world := world s |}) /\
    __closed (self (snd (open s))) = false /\
    __buffer (self (snd (open s))) = None /\
    __offset (self (snd (open s))) = __offset (self s) /\
    __buffer_offset (self (snd (open s))) = __buffer_offset (self s) /\
    __temp_file (self (snd (open s))) = __temp_file (self s).
Proof.
  repeat split.
Qed.

(** ** Reading from the bucket *)

(** The repository's test of [read]: the whole content of an existing
    object, [None] for a missing one. *)
Example read_tests :
  forall c : list byte,
    c <> [] ->
    fst (read None (new_stream (world_with c))) = Return (PyBytes c)
    /\ fst (read None (new_stream empty_world)) = Return PyNone.
Proof.
  intros c Hc. split; [|reflexivity].
  assert (Hlen : 0 < len c).
  { destruct c; [contradiction|]. unfold len. cbn [length]. lia. }
  unfold new_stream, world_with. run.
  change (truthy_int None) with false. cbn.
  rewrite Z.leb_refl. cbn.
  rewrite (proj2 (Z.ltb_lt 0 (len c))) by exact Hlen.
  change (truthy_int None) with false. reflexivity.
Qed.

(** Without a size (or with size 0, which [not size] takes for none) the
    rest of the object is fetched and the offset ends at its size. *)
Lemma read_rest (s : State) (c : list byte) (size : option Z) :
  __temp_file (self s) = None -> remote (world s) = Some c ->
  in_step s ->
  truthy_int size = false ->
  0 <= __offset (self s) < len c ->
  fst (read size s) = Return (PyBytes (drop (Z.to_nat (__offset (self s))) c))
  /\ requests (world (snd (read size s)))
       = GET (__offset (self s)) None :: requests (world s)
  /\ __offset (self (snd (read size s))) = len c.
Proof.
  intros Ht Hr Hin Hs Ho. break_state s. handle_cases Hin; run;
    rewrite Hs; cbn; rewrite Z.leb_refl; cbn;
    rewrite (proj2 (Z.leb_le _ _) (proj1 Ho)),
      (proj2 (Z.ltb_lt _ _) (proj2 Ho));
    change (truthy_int None) with false; cbn; auto.
Qed.

(** With a size, the range asked for is [offset .. offset+size-1], cut at
    the end of the object, and, unless the range ends at byte 0, the
    offset ends one past the last byte fetched. *)
Lemma read_range (s : State) (c : list byte) (n : Z) :
  __temp_file (self s) = None -> remote (world s) = Some c ->
  in_step s ->
  1 <= n -> 0 <= __offset (self s) < len c ->
  __offset (self s) + n - 1 <> 0 ->
  let off := __offset (self s) in
  let data := take (Z.to_nat n) (drop (Z.to_nat off) c) in
  fst (read (Some n) s) = Return (PyBytes data)
  /\ requests (world (snd (read (Some n) s)))
       = GET off (if len c - 1 <=? off + n - 1 then None
                  else Some (off + n - 1)) :: requests (world s)
  /\ __offset (self (snd (read (Some n) s))) = off + len data.
Proof.
  intros Ht Hr Hin Hn Ho He off data. subst off data.
  assert (Hs : truthy_int (Some n) = true).
  { unfold truthy_int. apply negb_true_iff, Z.eqb_neq. lia. }
  break_state s. handle_cases Hin; run; rewrite Hs; cbn;
    rewrite (proj2 (Z.leb_le _ _) (proj1 Ho)),
      (proj2 (Z.ltb_lt _ _) (proj2 Ho));
    unfold len in *;
    (destruct (Z.of_nat (length c) - 1 <=? __offset0 + n - 1) eqn:E; cbn;
     [ apply Z.leb_le in E;
       change (truthy_int None) with false; cbn;
       rewrite take_ge by (rewrite length_drop; lia);
       rewrite length_drop; repeat split; lia
     | apply Z.leb_gt in E;
       rewrite (proj2 (Z.leb_le __offset0 (__offset0 + n - 1))) by lia; cbn;
       assert (Hs' : truthy_int (Some (__offset0 + n - 1)) = true)
         by (unfold truthy_int; apply negb_true_iff, Z.eqb_neq; lia);
       rewrite Hs'; cbn;
       replace (__offset0 + n - 1 - __offset0 + 1) with n by lia;
       rewrite length_take, length_drop; repeat split; lia ]).
Qed.

(** C4, as the code has it: on a stream whose handle is in step with the
    object, a read of one byte at offset 0 of an object of two bytes or
    more asks for the range [0 .. 0] and gets the first byte; [if end:]
    then takes the end 0 for no end, and the offset is set to the size of
    the object instead of 1. *)
Theorem read_first_byte_offset (s : State) (c : list byte) :
  __temp_file (self s) = None -> remote (world s) = Some c ->
  in_step s ->
  __offset (self s) = 0 -> 2 <= len c ->
  fst (read (Some 1) s) = Return (PyBytes (take 1 c))
  /\ requests (world (snd (read (Some 1) s)))
       = GET 0 (Some 0) :: requests (world s)
  /\ __offset (self (snd (read (Some 1) s))) = len c.
Proof.
  intros Ht Hr Hin Ho Hc. break_state s. handle_cases Hin; run;
    change (truthy_int (Some 1)) with true; cbn;
    change (0 + 1 - 1) with 0;
    rewrite (proj2 (Z.leb_gt (len c - 1) 0)) by lia; cbn;
    rewrite (proj2 (Z.ltb_lt 0 (len c))) by lia;
    change (truthy_int (Some 0)) with false; cbn; auto.
Qed.

Lemma read_first_byte_offset_witness :
  let s := new_stream (world_with [x61; x62; x63]) in
  fst (read (Some 1) s) = Return (PyBytes [x61])
  /\ requests (world (snd (read (Some 1) s))) = [GET 0 (Some 0)]
  /\ __offset (self (snd (read (Some 1) s))) = 3.
Proof.
  intros s.
  apply (read_first_byte_offset s [x61; x62; x63]);
    try reflexivity; unfold len; cbn; lia.
Defined.

(** ** Writing and reading back *)

(** C1, as the code has it: on a new stream the first [__append] writes
    the buffer after the downloaded object, wherever the stream stood, so
    after [flush] the object is the old content followed by [b]; the read
    is served by the temp file, which [read] opens in text mode: when the
    old content and [b] are plain text, it gives back the first [len b]
    characters of that file as a [str]. *)
Theorem roundtrip_appends_to_object (w : World) (b : list byte) :
  upload_ok w = true -> b <> [] ->
  let c := default [] (remote w) in
  (reads_plain_text w -> plain (c ++ b) = true ->
   fst (roundtrip b (new_stream w))
   = Return (PyStr (text_of (take (length b) (c ++ b)))))
  /\ remote (world (snd (roundtrip b (new_stream w)))) = Some (c ++ b).
Proof.
  intros Hok Hne c. subst c.
  assert (Hpos : len b <> 0) by (rewrite len_zero; exact Hne).
  destruct w as [rem ok fs rq dec]; cbn in *; subst.
  unfold roundtrip, new_stream. run_outer.
  assert (Hslice : forall d, slice d 0 (Some (len b)) = take (length b) d).
  { intros d. unfold slice. rewrite (proj2 (Z.ltb_ge _ 0)) by (unfold len; lia).
    unfold len. rewrite Nat2Z.id. reflexivity. }
  destruct (1024 * 1024 <? len b) eqn:E; cbn;
    erewrite append_first by (cbn; eauto); cbn;
    rewrite ?append_idle by reflexivity; cbn;
    (destruct rem as [c|]; cbn; rewrite !lookup_insert_eq; cbn;
     change (truthy_bytes None) with false; cbn;
     rewrite !lookup_insert_eq; cbn;
     rewrite ?lookup_insert_eq; cbn;
     (split;
      [ intros Hd Hp;
        assert (H0 : 0 <= 0 <= max_offset) by (unfold max_offset; lia);
        pose proof (Hd _ 0 (Some (len b)) Hp H0) as Hx;
        cbn [decode] in Hx; rewrite !Hslice in Hx; rewrite Hx; reflexivity
      | match goal with
        | |- context [dec ?x ?y ?z] =>
            destruct (dec x y z) as [[text pos]|e]; reflexivity
        end ])).
Qed.

Lemma roundtrip_appends_to_object_witness :
  let w := world_with [x58; x59; x5a] in
  let b := [x61; x62] in
  fst (roundtrip b (new_stream w)) = Return (PyStr [88; 89]%N)
  /\ remote (world (snd (roundtrip b (new_stream w))))
       = Some [x58; x59; x5a; x61; x62].
Proof.
  intros w b.
  destruct (roundtrip_appends_to_object w b) as [H1 H2];
    [reflexivity | discriminate |].
  split; [|exact H2]. apply H1; [|reflexivity].
  intros c pos size Hc Hpos. unfold w, world_with, decode, ascii_reader.
  rewrite Hc. cbn [negb].
  rewrite (proj2 (Z.ltb_ge _ _)) by lia. reflexivity.
Defined.

(** ** Closing *)

Lemma append_present (s : State) :
  temp_file_present s -> temp_file_present (snd (__append s)).
Proof.
  unfold temp_file_present. intros H. break_state s. run.
  split_paths; cbn; try exact H;
    intros q Hq; injection Hq as <-; rewrite ?lookup_insert_eq; eauto.
Qed.

(** An upload touches neither the local files nor, the handle apart, the
    stream. *)
Lemma upload_frame (name : positive) (s : State) :
  same_files s (snd (upload_from_filename name s)).
Proof.
  unfold same_files. break_state s. run. split_paths; auto.
Qed.

Lemma flush_after_append (s : State) :
  same_files (snd (__append s)) (snd (flush s)).
Proof.
  unfold flush, attr, mbind, mret, M_bind, M_ret.
  destruct (__append s) as [[[]|e] s1]; cbn; [|repeat split].
  destruct (__temp_file (self s1)); cbn; [apply upload_frame|repeat split].
Qed.

Lemma flush_present (s : State) :
  temp_file_present s -> temp_file_present (snd (flush s)).
Proof.
  intros H. apply append_present in H.
  destruct (flush_after_append s) as (_ & _ & Hs & Hf).
  unfold temp_file_present in *. rewrite Hs, Hf. exact H.
Qed.

Lemma close_closed (s : State) :
  __closed (self s) = true -> close s = (Return tt, s).
Proof. intros H. break_state s. run. reflexivity. Qed.

Lemma close_open (s : State) :
  __closed (self s) = false -> temp_file_present s ->
  close s = (fst (flush s), cleaned (snd (flush s))).
Proof.
  intros Hc Hp. apply flush_present in Hp.
  unfold close, try_finally, os_unlink, attr, assign, ask, update, raise,
    mbind, mret, M_bind, M_ret.
  rewrite Hc.
  destruct (flush s) as [r s1]. cbn in *.
  unfold temp_file_present in Hp. unfold cleaned.
  destruct (__temp_file (self s1)) as [p|] eqn:Et; cbn.
  - destruct (Hp p eq_refl) as [c Hc1]. rewrite Hc1. cbn.
    rewrite ?Et. reflexivity.
  - destruct s1 as [g1 w1]; destruct g1; cbn in *; subst. reflexivity.
Qed.

(** C7: [close] on a closed stream does nothing; on an open stream it runs
    [flush] and then, whether [flush] returned or raised, removes the temp
    file, clears its path and the buffer and marks the stream closed, with
    the result of [flush] as its own result. *)
Theorem close_flushes_and_cleans (s : State) :
  temp_file_present s ->
  (__closed (self s) = true -> close s = (Return tt, s)) /\
  (__closed (self s) = false ->
   fst (close s) = fst (flush s) /\
   remote (world (snd (close s))) = remote (world (snd (flush s))) /\
   requests (world (snd (close s))) = requests (world (snd (flush s))) /\
   __temp_file (self (snd (close s))) = None /\
   (forall p, __temp_file (self (snd (flush s))) = Some p ->
              files (world (snd (close s))) !! p = None) /\
   __buffer (self (snd (close s))) = None /\
   __closed (self (snd (close s))) = true).
Proof.
  intros Hp. split; [apply close_closed|].
  intros Hc. rewrite (close_open s Hc Hp). cbn.
  destruct (__temp_file (self (snd (flush s)))) as [p|]; cbn;
    repeat split; try discriminate.
  intros q Hq. injection Hq as <-. apply lookup_delete_eq.
Qed.

(** A stream with a pending write whose upload the service refuses. *)
Lemma close_flushes_and_cleans_witness :
  let w := {| remote := None; upload_ok := false; files := ∅;
              requests := []; decode := ascii_reader |} in
  let s := snd ((open;; write [x61; x62]) (new_stream w)) in
  fst (flush s) = Raise ServiceError /\
  fst (close s) = fst (flush s) /\
  remote (world (snd (close s))) = remote (world (snd (flush s))) /\
  requests (world (snd (close s))) = requests (world (snd (flush s))) /\
  __temp_file (self (snd (close s))) = None /\
  (forall p, __temp_file (self (snd (flush s))) = Some p ->
             files (world (snd (close s))) !! p = None) /\
  __buffer (self (snd (close s))) = None /\
  __closed (self (snd (close s))) = true.
Proof.
  intros w s. split; [reflexivity|].
  apply (close_flushes_and_cleans s).
  - intros p Hp. discriminate Hp.
  - reflexivity.
Defined.

(** ** The stream and its temp file *)

Lemma owns_present (F : gmap positive (list byte)) (s : State) :
  owns F s -> temp_file_present s.
Proof.
  unfold owns, temp_file_present. intros H p Hp. rewrite Hp in H. tauto.
Qed.

Lemma append_closed (s : State) :
  __closed (self (snd (__append s))) = __closed (self s).
Proof.
  break_state s. run. split_paths; reflexivity.
Qed.

Lemma append_owns (F : gmap positive (list byte)) (s : State) :
  owns F s -> owns F (snd (__append s)).
Proof.
  unfold owns. break_state s. run.
  destruct (truthy_bytes __buffer0); cbn; [|auto].
  destruct __temp_file0 as [name|]; cbn.
  - intros (HF & Hin & Hdel).
    destruct __buffer_offset0 as [bo|]; cbn;
      [destruct (bo <? 0); cbn; [|destruct (max_offset <? bo); cbn]|];
      rewrite ?lookup_insert_eq, ?delete_insert_eq; eauto.
  - intros <-.
    assert (Hfresh : files0 !! fresh (dom files0) = None).
    { apply not_elem_of_dom, is_fresh. }
    destruct __blob0, remote0; cbn;
      rewrite ?lookup_insert_eq, ?delete_insert_eq, (delete_id _ _ Hfresh);
      eauto.
Qed.

Lemma append_tidy (F : gmap positive (list byte)) (s : State) :
  tidy F s -> tidy F (snd (__append s)).
Proof.
  intros [Ho Hc]. destruct (__closed (self s)) eqn:E.
  - destruct (Hc eq_refl) as [Ht Hb].
    rewrite append_idle by (rewrite Hb; reflexivity). cbn.
    split; [exact Ho|]. rewrite E. exact Hc.
  - split; [apply append_owns, Ho|].
    rewrite append_closed, E. discriminate.
Qed.

Lemma tidy_same (F : gmap positive (list byte)) (s s' : State) :
  same_files s s' -> tidy F s -> tidy F s'.
Proof.
  unfold same_files, tidy, owns. intros (Hc & Hb & Ht & Hf).
  rewrite Hc, Hb, Ht, Hf. auto.
Qed.

Lemma blob_same (s : State) : same_files s (snd (blob s)).
Proof. unfold same_files. break_state s. run. split_paths; auto. Qed.

Lemma read_same (size : option Z) (s : State) :
  same_files s (snd (read size s)).
Proof.
  unfold same_files. break_state s. run. split_paths; auto.
Qed.

Lemma seek_same (pos whence : Z) (s : State) :
  same_files (snd (__append s)) (snd (seek pos whence s)).
Proof.
  unfold same_files, seek, file_size, blob_size, blob, attr, assign, ask,
    raise, mbind, mret, M_bind, M_ret.
  destruct (truthy_bytes (__buffer (self s))) eqn:Eb; cbn.
  - destruct (__append s) as [[[]|e] s1]; cbn; [|auto].
    split_paths; auto.
  - rewrite (append_idle s Eb). cbn. split_paths; auto.
Qed.

(** ** Invariance of [tidy] under the methods and under client code *)

Lemma keeps_bind (P : State -> Prop) {A B : Type} (m : M A) (k : A -> M B) :
  keeps P m -> (forall a, keeps P (k a)) -> keeps P (m ≫= k).
Proof.
  unfold keeps, mbind, M_bind. intros Hm Hk s Hs.
  specialize (Hm s Hs). destruct (m s) as [[a|e] s1]; cbn in *.
  - apply Hk, Hm.
  - exact Hm.
Qed.

Lemma keeps_ret (P : State -> Prop) {A : Type} (a : A) :
  keeps P (mret a : M A).
Proof. intros s Hs. exact Hs. Qed.

Lemma keeps_raise (P : State -> Prop) {A : Type} (e : exn) :
  keeps P (raise e : M A).
Proof. intros s Hs. exact Hs. Qed.

Lemma keeps_attr (P : State -> Prop) {A : Type} (f : GSFile -> A) :
  keeps P (attr f).
Proof. intros s Hs. exact Hs. Qed.

Lemma keeps_ask (P : State -> Prop) {A : Type} (f : World -> A) :
  keeps P (ask f).
Proof. intros s Hs. exact Hs. Qed.

Section Tidy.

Variable F : gmap positive (list byte).

Lemma keeps_seek (pos whence : Z) : keeps (tidy F) (seek pos whence).
Proof.
  intros s Hs. eapply tidy_same; [apply seek_same|apply append_tidy, Hs].
Qed.

Lemma keeps_read (size : option Z) : keeps (tidy F) (read size).
Proof. intros s Hs. eapply tidy_same; [apply read_same|exact Hs]. Qed.

Lemma keeps_flush : keeps (tidy F) flush.
Proof.
  intros s Hs.
  eapply tidy_same; [apply flush_after_append|apply append_tidy, Hs].
Qed.

Lemma keeps_with_gz (v : option bool) : keeps (tidy F) (assign (with_gz v)).
Proof. intros s Hs. eapply tidy_same; [|exact Hs]. repeat split. Qed.

Lemma keeps_blob : keeps (tidy F) blob.
Proof. intros s Hs. eapply tidy_same; [apply blob_same|exact Hs]. Qed.

Lemma keeps_is_gz : keeps (tidy F) is_gz.
Proof.
  unfold is_gz, tell, blob_size, hexlify.
  apply keeps_bind; [apply keeps_attr|]. intros [r|]; [apply keeps_ret|].
  apply keeps_bind; [apply keeps_blob|]. intros [n|]; [|apply keeps_raise].
  destruct (n <? 2); [apply keeps_ret|].
  apply keeps_bind; [apply keeps_attr|]. intros offset.
  apply keeps_bind; [apply keeps_seek|]. intros _.
  apply keeps_bind; [apply keeps_read|]. intros v.
  apply keeps_bind.
  { destruct v; first [apply keeps_ret | apply keeps_raise]. }
  intros b.
  apply keeps_bind; [apply keeps_seek|]. intros _.
  apply keeps_bind; [apply keeps_with_gz|]. intros _. apply keeps_ret.
Qed.

Lemma keeps_write (b : list byte) : keeps (tidy F) (write b).
Proof.
  intros s Hs. destruct (__closed (self s)) eqn:Ec.
  - rewrite write_closed by exact Ec. exact Hs.
  - destruct Hs as [Ho _].
    assert (Hopen : forall s', owns F s' -> __closed (self s') = false ->
                               tidy F s').
    { intros s' Ho' Hc'. split; [exact Ho'|]. rewrite Hc'. discriminate. }
    break_state s. run_outer.
    destruct __buffer0 as [old|]; cbn;
      match goal with
      | |- context [if ?c then _ else _] => destruct c; cbn
      end;
      try (apply Hopen; [exact Ho|reflexivity]);
      match goal with
      | |- context [__append ?s0] =>
          assert (Ht : tidy F (snd (__append s0)))
            by (apply append_tidy, Hopen; [exact Ho|reflexivity]);
          destruct (__append s0) as [[[]|e] s1]; cbn in *
      end;
      try exact Ht;
      (eapply tidy_same; [|exact Ht]); repeat split.
Qed.

Lemma cleaned_tidy (s : State) : owns F s -> tidy F (cleaned s).
Proof.
  unfold tidy, owns, cleaned. intros Ho. cbn.
  destruct (__temp_file (self s)) as [p|]; cbn; [|auto].
  destruct Ho as (_ & _ & Hdel). auto.
Qed.

Lemma keeps_close : keeps (tidy F) close.
Proof.
  intros s Hs. destruct (__closed (self s)) eqn:Ec.
  - rewrite close_closed by exact Ec. exact Hs.
  - rewrite close_open
      by (try exact Ec; eapply owns_present, (proj1 Hs)).
    cbn. apply cleaned_tidy. apply keeps_flush in Hs. apply Hs.
Qed.

Lemma open_tidy (s : State) : owns F s -> tidy F (snd (open s)).
Proof.
  intros Ho. split; [exact Ho|]. cbn. discriminate.
Qed.

Lemma keeps_open : keeps (tidy F) open.
Proof. intros s [Ho _]. apply open_tidy, Ho. Qed.

Lemma keeps_do_call (c : call) : keeps (tidy F) (do_call c).
Proof.
  destruct c; cbn [do_call];
    first [ apply keeps_flush | apply keeps_close | apply keeps_open
          | apply keeps_bind; [|intros; apply keeps_ret] ].
  - apply keeps_write.
  - apply keeps_read.
  - apply keeps_seek.
  - apply keeps_attr.
  - apply keeps_is_gz.
Qed.

Lemma keeps_exec (p : stmt) : keeps (tidy F) (exec p).
Proof.
  induction p as [c|p IHp q IHq|p IHp h IHh|e|]; cbn [exec].
  - apply keeps_do_call.
  - apply keeps_bind; [exact IHp|intros _; exact IHq].
  - intros s Hs. specialize (IHp s Hs).
    destruct (exec p s) as [[[]|e] s1]; cbn in *; [exact IHp|].
    apply IHh, IHp.
  - apply keeps_raise.
  - apply keeps_ret.
Qed.

End Tidy.

(** ** Closed streams, as client code can reach them *)

Lemma new_stream_tidy (w : World) : tidy (files w) (new_stream w).
Proof. split; [reflexivity|]. intros _. split; reflexivity. Qed.

(** Whatever a client has done with a stream, a closed stream has no temp
    file and no buffer. *)
Lemma closed_clean (w : World) (p : stmt) :
  let s := snd (exec p (new_stream w)) in
  __closed (self s) = true ->
  __temp_file (self s) = None /\ __buffer (self s) = None.
Proof.
  intros s Hc.
  apply (keeps_exec (files w) p (new_stream w) (new_stream_tidy w)), Hc.
Qed.

(** C5, amended: on a closed stream, however the client got there,
    [write] raises [ValueError] and leaves the stream and the world as
    they were, so nothing is uploaded; [flush] has no such guard: it
    returns normally, and it too leaves the stream and the world as they
    were. *)
Theorem closed_write_raises_flush_returns (w : World) (p : stmt) :
  let s := snd (exec p (new_stream w)) in
  __closed (self s) = true ->
  (forall b, write b s = (Raise ValueError, s)) /\
  flush s = (Return tt, s).
Proof.
  intros s Hc. destruct (closed_clean w p Hc) as [Ht Hb]. split.
  - intros b. apply write_closed, Hc.
  - apply flush_idle; assumption.
Qed.

(** A stream that was opened, written to and closed again. *)
Lemma closed_write_raises_flush_returns_witness :
  let w := world_with [x58] in
  let p := Seq (Call Open) (Seq (Call (Write [x61; x62])) (Call Close)) in
  let s := snd (exec p (new_stream w)) in
  remote (world s) = Some [x58; x61; x62] /\
  (forall b, write b s = (Raise ValueError, s)) /\
  flush s = (Return tt, s).
Proof.
  intros w p s. split; [reflexivity|].
  apply (closed_write_raises_flush_returns w p). reflexivity.
Defined.

(** ** The gzip peek *)

Lemma hex_1f (a : byte) :
  hexdigit (Byte.to_N a / 16) = "1"%byte ->
  hexdigit (Byte.to_N a mod 16) = "f"%byte -> a = x1f.
Proof.
  destruct a; vm_compute; intros H1 H2; first [reflexivity | discriminate].
Qed.

Lemma hex_8b (a : byte) :
  hexdigit (Byte.to_N a / 16) = "8"%byte ->
  hexdigit (Byte.to_N a mod 16) = "b"%byte -> a = x8b.
Proof.
  destruct a; vm_compute; intros H1 H2; first [reflexivity | discriminate].
Qed.

(** Comparing the hexadecimal text with [b'1f8b'] is comparing the two
    bytes with the gzip magic number. *)
Lemma hexlify_magic (l : list byte) :
  length l = 2%nat ->
  bool_decide (hexlify_bytes l = ["1"; "f"; "8"; "b"]%byte)
  = bool_decide (l = [x1f; x8b]).
Proof.
  destruct l as [|a [|b [|? ?]]]; try discriminate. intros _.
  apply bool_decide_ext. cbn. split; intros H.
  - injection H as H1 H2 H3 H4.
    rewrite (hex_1f a H1 H2), (hex_8b b H3 H4). reflexivity.
  - injection H as -> ->. reflexivity.
Qed.

Lemma is_gz_cached (s : State) (r : bool) :
  __gz (self s) = Some r -> is_gz s = (Return r, s).
Proof. intros H. break_state s. run. reflexivity. Qed.

(** The uncached peek at an object of two bytes or more, on a stream that
    reads from the bucket and whose handle is in step. *)
Lemma is_gz_fresh (s : State) (c : list byte) :
  remote (world s) = Some c -> in_step s -> __gz (self s) = None ->
  __temp_file (self s) = None ->
  truthy_bytes (__buffer (self s)) = false ->
  2 <= len c ->
  let r := bool_decide (take 2 c = [x1f; x8b]) in
  is_gz s =
    (Return r,
     {| self := with_gz (Some r) (self (with_handle s));
        world :=
          log (GET 0 (if len c - 1 <=? 1 then None else Some 1)) (world s) |}).
Proof.
  intros Hr Hin Hg Ht Hb Hc r. subst r. unfold with_handle, blob_size_of.
  break_state s. handle_cases Hin; run;
    rewrite (proj2 (Z.ltb_ge (len c) 2)) by lia; cbn; rewrite ?Hb; cbn;
    change (truthy_int (Some 2)) with true; cbn;
    change (0 + 2 - 1) with 1;
    rewrite (proj2 (Z.ltb_lt 0 (len c))) by lia;
    (destruct (len c - 1 <=? 1) eqn:E; cbn;
     [ apply Z.leb_le in E;
       change (truthy_int None) with false; cbn; rewrite ?Hb; cbn;
       change (drop (Z.to_nat 0) c) with c;
       rewrite hexlify_magic by (unfold len in *; lia);
       rewrite take_ge by (unfold len in *; lia); reflexivity
     | apply Z.leb_gt in E;
       change (truthy_int (Some 1)) with true; cbn; rewrite ?Hb; cbn;
       change (take (Z.to_nat (1 - 0 + 1)) (drop (Z.to_nat 0) c))
         with (take 2 c);
       rewrite hexlify_magic
         by (rewrite length_take; unfold len in *; lia);
       reflexivity ]).
Qed.

(** No method but [is_gz] assigns [__gz]. *)

Lemma read_gz (size : option Z) (s : State) :
  __gz (self (snd (read size s))) = __gz (self s).
Proof. break_state s. run. split_paths; reflexivity. Qed.

Lemma seek_gz (pos whence : Z) (s : State) :
  __gz (self (snd (seek pos whence s))) = __gz (self s).
Proof. break_state s. run. split_paths; reflexivity. Qed.

Lemma write_gz (b : list byte) (s : State) :
  __gz (self (snd (write b s))) = __gz (self s).
Proof. break_state s. run. split_paths; reflexivity. Qed.

Lemma flush_gz (s : State) : __gz (self (snd (flush s))) = __gz (self s).
Proof. break_state s. run. split_paths; reflexivity. Qed.

Lemma close_gz (s : State) : __gz (self (snd (close s))) = __gz (self s).
Proof. break_state s. run. split_paths; reflexivity. Qed.

(** Once an answer is stored it stays, whatever the client does. *)
Lemma keeps_gz (r : bool) (p : stmt) :
  keeps (fun s => __gz (self s) = Some r) (exec p).
Proof.
  induction p as [c|p IHp q IHq|p IHp h IHh|e|]; cbn [exec].
  - destruct c; cbn [do_call];
      try (apply keeps_bind; [|intros; apply keeps_ret]); intros s Hs.
    + rewrite write_gz. exact Hs.
    + rewrite read_gz. exact Hs.
    + rewrite seek_gz. exact Hs.
    + exact Hs.
    + rewrite flush_gz. exact Hs.
    + rewrite (is_gz_cached s r Hs). exact Hs.
    + rewrite close_gz. exact Hs.
    + exact Hs.
  - apply keeps_bind; [exact IHp|intros _; exact IHq].
  - intros s Hs. specialize (IHp s Hs).
    destruct (exec p s) as [[[]|e] s1]; cbn in *; [exact IHp|].
    apply IHh, IHp.
  - apply keeps_raise.
  - apply keeps_ret.
Qed.

(** C9 as stated fails on the caching: the [False] for an object shorter
    than two bytes is returned before anything is stored.  On a stream
    over the one-byte object [1F], [is_gz] is [False]; the client then
    appends [8B 08] through the same stream and closes it, and [is_gz] on
    that stream is [True]. *)
Lemma is_gz_short_answer_not_cached :
  ~ (forall (s : State) (r : bool) (p : stmt),
       fst (is_gz s) = Return r ->
       fst (is_gz (snd (exec p (snd (is_gz s))))) = Return r).
Proof.
  intros H.
  specialize (H (new_stream (world_with [x1f])) false
                (Seq (Call Open)
                   (Seq (Call (Write [x8b; x08])) (Call Close)))
                eq_refl).
  vm_compute in H. discriminate.
Qed.

(** C9, amended: on a stream that reads from the bucket (no temp file, no
    pending write), whose blob handle is in step with the object and
    which has no stored answer yet, [is_gz] is [False] for an object
    shorter than two bytes, without any request and without storing
    anything (the stream is as before, its handle made); for an object of
    two bytes or more it tells whether the first two bytes are [1F 8B],
    so it is [True] for every object that begins with them, and that
    answer is stored: every later call on the stream gives it again,
    whatever the client has done in between; the offset after the call is
    the offset before it. *)
Theorem is_gz_peek (s : State) (c : list byte) :
  remote (world s) = Some c -> in_step s -> __gz (self s) = None ->
  __temp_file (self s) = None ->
  truthy_bytes (__buffer (self s)) = false ->
  (len c < 2 -> is_gz s = (Return false, with_handle s)) /\
  (2 <= len c ->
   fst (is_gz s) = Return (bool_decide (take 2 c = [x1f; x8b])) /\
   forall p : stmt,
     fst (is_gz (snd (exec p (snd (is_gz s)))))
     = Return (bool_decide (take 2 c = [x1f; x8b]))) /\
  (forall rest, c = x1f :: x8b :: rest -> fst (is_gz s) = Return true) /\
  __offset (self (snd (is_gz s))) = __offset (self s).
Proof.
  intros Hr Hin Hg Ht Hb.
  assert (Hshort : len c < 2 -> is_gz s = (Return false, with_handle s)).
  { intros Hc. unfold with_handle, blob_size_of. break_state s.
    handle_cases Hin; run;
      rewrite (proj2 (Z.ltb_lt (len c) 2)) by lia; reflexivity. }
  split; [exact Hshort|]. split.
  { intros Hc. rewrite (is_gz_fresh s c) by assumption. cbn [fst snd].
    split; [reflexivity|]. intros p.
    erewrite is_gz_cached; [reflexivity|].
    apply keeps_gz. destruct s as [g w]; destruct g; reflexivity. }
  split.
  { intros rest ->.
    assert (Hlen : 2 <= len (x1f :: x8b :: rest)).
    { unfold len. cbn [length]. lia. }
    rewrite (is_gz_fresh s _ Hr Hin Hg Ht Hb Hlen). reflexivity. }
  destruct (Z.lt_ge_cases (len c) 2) as [Hc|Hc].
  - rewrite (Hshort Hc). reflexivity.
  - rewrite (is_gz_fresh s c) by assumption.
    destruct s as [g w]; destruct g; reflexivity.
Qed.

Lemma is_gz_peek_witness :
  let c := [x1f; x8b; x08; x00] in
  let s := snd (seek 3 0 (new_stream (world_with c))) in
  (len c < 2 -> is_gz s = (Return false, with_handle s)) /\
  (2 <= len c ->
   fst (is_gz s) = Return (bool_decide (take 2 c = [x1f; x8b])) /\
   forall p : stmt,
     fst (is_gz (snd (exec p (snd (is_gz s)))))
     = Return (bool_decide (take 2 c = [x1f; x8b]))) /\
  (forall rest, c = x1f :: x8b :: rest -> fst (is_gz s) = Return true) /\
  __offset (self (snd (is_gz s))) = 3.
Proof.
  intros c s. apply (is_gz_peek s c); reflexivity.
Defined.

(** ** The context manager *)

Lemma close_closes (s : State) :
  temp_file_present s -> __closed (self (snd (close s))) = true.
Proof.
  intros Hp. destruct (__closed (self s)) eqn:Ec.
  - rewrite close_closed by exact Ec. exact Ec.
  - rewrite close_open by assumption. reflexivity.
Qed.

(** C10: [with] opens the stream on entry, and whatever the body does,
    whether it returns or raises, [__exit__] runs [close] on the state the
    body left: if the stream is still open there, [flush] is run (the
    pending writes go to the temp file and the temp file is uploaded); on
    both paths the stream ends closed, without buffer and without temp
    file, and the local files are what they were without the temp file.
    An exception of the body is raised again unless [close] raises one of
    its own. *)
Theorem with_block_closes (F : gmap positive (list byte)) (body : stmt)
    (s : State) :
  owns F s ->
  let s1 := snd (exec body (snd (__enter__ s))) in
  let r1 := fst (exec body (snd (__enter__ s))) in
  let s2 := snd (with_ (exec body) s) in
  let r2 := fst (with_ (exec body) s) in
  __closed (self (snd (__enter__ s))) = false /\
  s2 = snd (close s1) /\
  r2 = match fst (close s1) with Return _ => r1 | Raise e => Raise e end /\
  (__closed (self s1) = false ->
   fst (close s1) = fst (flush s1) /\
   remote (world s2) = remote (world (snd (flush s1)))) /\
  __closed (self s2) = true /\ __temp_file (self s2) = None /\
  __buffer (self s2) = None /\ files (world s2) = F.
Proof.
  intros Ho s1 r1 s2 r2.
  assert (H1 : tidy F s1).
  { apply keeps_exec, open_tidy, Ho. }
  assert (Hrun : with_ (exec body) s
                 = (match fst (close s1) with
                    | Return _ => r1
                    | Raise e => Raise e
                    end, snd (close s1))).
  { subst s1 r1. unfold __enter__. set (s0 := snd (open s)).
    unfold with_, __enter__, __exit__, try_finally, mbind, M_bind.
    change (open s) with (Return tt, s0). cbv beta iota.
    destruct (exec body s0) as [r s']. cbn [fst snd].
    destruct (close s') as [[[]|e] s'']; reflexivity. }
  assert (H2 : tidy F (snd (close s1))) by (apply keeps_close, H1).
  assert (Hc2 : __closed (self (snd (close s1))) = true).
  { apply close_closes. eapply owns_present, (proj1 H1). }
  subst s2 r2. rewrite Hrun. cbn [fst snd].
  split; [reflexivity|]. split; [reflexivity|]. split; [reflexivity|].
  split.
  { intros Hopen.
    rewrite close_open
      by (try exact Hopen; eapply owns_present, (proj1 H1)).
    cbn [fst snd]. split; [reflexivity|].
    unfold cleaned. cbn.
    destruct (__temp_file (self (snd (flush s1)))); reflexivity. }
  split; [exact Hc2|].
  destruct H2 as [Ho2 Hcl2]. destruct (Hcl2 Hc2) as [Ht2 Hb2].
  repeat split; try assumption.
  unfold owns in Ho2. rewrite Ht2 in Ho2. exact Ho2.
Qed.

(** A body that writes and then raises, on a stream over an existing
    object: the write is uploaded all the same and no temp file stays. *)
Lemma with_block_closes_witness :
  let s := new_stream (world_with [x58]) in
  let body := Seq (Call (Write [x61; x62])) (RaiseStmt (OtherError 0)) in
  let s1 := snd (exec body (snd (__enter__ s))) in
  let r1 := fst (exec body (snd (__enter__ s))) in
  let s2 := snd (with_ (exec body) s) in
  let r2 := fst (with_ (exec body) s) in
  (r1 = Raise (OtherError 0) /\ r2 = Raise (OtherError 0)
   /\ remote (world s2) = Some [x58; x61; x62]) /\
  __closed (self (snd (__enter__ s))) = false /\
  s2 = snd (close s1) /\
  r2 = match fst (close s1) with Return _ => r1 | Raise e => Raise e end /\
  (__closed (self s1) = false ->
   fst (close s1) = fst (flush s1) /\
   remote (world s2) = remote (world (snd (flush s1)))) /\
  __closed (self s2) = true /\ __temp_file (self s2) = None /\
  __buffer (self s2) = None /\ files (world s2) = ∅.
Proof.
  intros s body s1 r1 s2 r2. split.
  - repeat split; reflexivity.
  - apply (with_block_closes ∅ body s). reflexivity.
Defined.

End StreamProofs.

(** * Properties of the buckets *)

Module BucketProofs.
Import GSObject CopyProofs.
Local Open Scope string_scope.

Lemma elem_of_list_blobs (st : gmap (string * string) (list byte))
    (b p k : string) :
  k ∈ GSBucket.list_blobs st b p <->
  is_Some (st !! (b, k)) /\ startswith k p = true.
Proof.
  unfold GSBucket.list_blobs. rewrite list_elem_of_omap. split.
  - intros ([[b' k'] v] & Hin & Hf). apply elem_of_map_to_list in Hin.
    destruct (String.eqb b' b) eqn:Eb; cbn in Hf; [|discriminate].
    destruct (startswith k' p) eqn:Ep; [|discriminate].
    injection Hf as ->. apply String.eqb_eq in Eb as ->. eauto.
  - intros [[v Hv] Hp]. exists (b, k, v). split.
    + apply elem_of_map_to_list. exact Hv.
    + rewrite String.eqb_refl, Hp. reflexivity.
Qed.

Lemma foldl_delete_lookup (b : string) (l : list string)
    (st : gmap (string * string) (list byte)) (x : string * string) :
  foldl (GSBucket.blob_delete b) st l !! x
  = if decide (fst x = b /\ snd x ∈ l) then None else st !! x.
Proof.
  revert st. induction l as [|k l IH]; intros st; cbn [foldl].
  - case_decide as H; [|reflexivity]. destruct H as [_ H]. inversion H.
  - rewrite IH. unfold GSBucket.blob_delete. destruct x as [b' k']. cbn.
    destruct (decide (b' = b /\ k' ∈ l)) as [[-> Hin]|Hd1].
    + rewrite decide_True; [reflexivity|]. split; [reflexivity|].
      apply elem_of_cons. right. exact Hin.
    + destruct (decide ((b, k) = (b', k'))) as [E|Hne].
      * injection E as <- <-. rewrite lookup_delete_eq.
        rewrite decide_True; [reflexivity|]. split; [reflexivity|].
        apply elem_of_cons. left. reflexivity.
      * rewrite lookup_delete_ne by exact Hne.
        rewrite decide_False; [reflexivity|]. intros [-> Hin].
        apply elem_of_cons in Hin as [->|Hin]; [congruence|].
        apply Hd1. auto.
Qed.

Lemma delete_lookup (self : GSObject)
    (st : gmap (string * string) (list byte)) (b k : string) :
  GSBucket.delete self st !! (b, k)
  = if String.eqb b (bucket_name self) && startswith k (prefix self)
    then None else st !! (b, k).
Proof.
  unfold GSBucket.delete. rewrite foldl_delete_lookup. cbn.
  unfold GSBucket.blobs. case_decide as Hd.
  - destruct Hd as [-> Hin]. apply elem_of_list_blobs in Hin as [_ Hp].
    rewrite String.eqb_refl, Hp. reflexivity.
  - destruct (String.eqb b (bucket_name self)) eqn:Eb; cbn; [|reflexivity].
    destruct (startswith k (prefix self)) eqn:Ep; [|reflexivity].
    apply String.eqb_eq in Eb as ->.
    destruct (st !! (bucket_name self, k)) as [v|] eqn:Ev; [|reflexivity].
    exfalso. apply Hd. split; [reflexivity|].
    apply elem_of_list_blobs. rewrite Ev. eauto.
Qed.

(** X1: [delete] removes the objects of the bucket whose key starts with the
    prefix, and only those; a listing of the prefix is empty afterwards. *)
Theorem delete_removes_the_prefix (self : GSObject)
    (st : gmap (string * string) (list byte)) :
  (forall b k,
     GSBucket.delete self st !! (b, k)
     = if String.eqb b (bucket_name self) && startswith k (prefix self)
       then None else st !! (b, k))
  /\ GSBucket.blobs self (GSBucket.delete self st) = [].
Proof.
  pose proof (delete_lookup self st) as H.
  split; [exact H|].
  apply elem_of_nil_inv. intros k Hk. unfold GSBucket.blobs in Hk.
  apply elem_of_list_blobs in Hk as [[v Hv] Hp].
  rewrite H, String.eqb_refl, Hp in Hv. discriminate.
Qed.


(** ** [copy] on the buckets *)

Lemma omap_all_None {A B : Type} (f : A -> option B) (l : list A) :
  (forall x, x ∈ l -> f x = None) -> omap f l = [].
Proof.
  induction l as [|a l IH]; intros H; [reflexivity|]. cbn.
  rewrite (H a) by (apply elem_of_cons; auto).
  apply IH. intros x Hx. apply H, elem_of_cons. auto.
Qed.

Lemma replace_same (k p : string) :
  startswith k p = true -> replace k p p = k.
Proof.
  intros H. apply startswith_inv in H. rewrite H at 1.
  rewrite replace_prefix. symmetry. exact H.
Qed.

(** X2: When the destination prefix comes out equal to the source prefix,
    every new key equals the old one and [copy] skips every object, also
    when the destination is another bucket: the batch is left without a
    call, so [copy] raises [ValueError] and copies nothing, and [move]
    raises with it and deletes nothing. *)
Theorem copy_to_same_prefix_copies_nothing (self : GSObject) (to : string) :
  prefix (__init__ (copy_to self to)) = prefix self ->
  (forall keys, GSObject.copy self to keys = [])
  /\ (forall st, GSBucket.copy self to st = (Raise ValueError, st))
  /\ (forall st, GSBucket.move self to st = (Raise ValueError, st)).
Proof.
  intros Hp.
  assert (H : forall keys, GSObject.copy self to keys = []).
  { intros keys. unfold GSObject.copy. apply omap_all_None.
    intros k Hk. unfold GSObject.blobs in Hk.
    apply list_elem_of_filter in Hk as [Hs _].
    rewrite Hp, (replace_same k _ Hs), String.eqb_refl. reflexivity. }
  split; [exact H|].
  assert (H' : forall st, GSBucket.copy self to st = (Raise ValueError, st)).
  { intros st. unfold GSBucket.copy. rewrite H. reflexivity. }
  split; [exact H'|]. intros st. unfold GSBucket.move. rewrite H'.
  reflexivity.
Qed.

Lemma copy_to_same_prefix_copies_nothing_witness :
  let self := GSFolder "gs://bucket_a/x/" in
  let to := "gs://bucket_b/" in
  bucket_name (__init__ (copy_to self to)) = "bucket_b"
  /\ (forall keys, GSObject.copy self to keys = [])
  /\ (forall st, GSBucket.copy self to st = (Raise ValueError, st))
  /\ (forall st, GSBucket.move self to st = (Raise ValueError, st)).
Proof.
  intros self to. split; [reflexivity|].
  apply (copy_to_same_prefix_copies_nothing self to). reflexivity.
Defined.

Lemma append_inj_l (p a b : string) : p +:+ a = p +:+ b -> a = b.
Proof.
  induction p as [|c p IH]; [auto|]. rewrite !append_cons.
  intros [=]. auto.
Qed.

Lemma append_length (a b : string) :
  String.length (a +:+ b) = (String.length a + String.length b)%nat.
Proof.
  induction a as [|c a IH]; [reflexivity|]. rewrite append_cons. cbn.
  rewrite IH. reflexivity.
Qed.

Lemma append_inj_r (a b r : string) : a +:+ r = b +:+ r -> a = b.
Proof.
  revert b. induction a as [|c a IH]; intros [|d b] H.
  - reflexivity.
  - exfalso. apply (f_equal String.length) in H.
    rewrite append_nil, append_length in H. cbn in H. lia.
  - exfalso. apply (f_equal String.length) in H.
    rewrite append_nil, append_length in H. cbn in H. lia.
  - rewrite !append_cons in H. injection H as -> H. f_equal. auto.
Qed.

Lemma foldl_copy (src : string) (l : list copy_blob)
    (st : gmap (string * string) (list byte)) :
  (forall c, c ∈ l -> is_Some (st !! (src, blob c))) ->
  (forall c c', c ∈ l -> c' ∈ l ->
                (destination_bucket c, new_name c) <> (src, blob c')) ->
  (forall c c', c ∈ l -> c' ∈ l ->
                (destination_bucket c, new_name c)
                = (destination_bucket c', new_name c') ->
                blob c = blob c') ->
  (forall c, c ∈ l ->
     foldl (GSBucket.run_copy_blob src) st l
       !! (destination_bucket c, new_name c) = st !! (src, blob c))
  /\ (forall x, (forall c, c ∈ l -> (destination_bucket c, new_name c) <> x) ->
                foldl (GSBucket.run_copy_blob src) st l !! x = st !! x).
Proof.
  induction l as [|c l IH] using rev_ind; intros Hsrc Hdis Hinj.
  - split; [intros c Hc; inversion Hc|reflexivity].
  - destruct IH as [IHa IHb].
    { intros c' Hc'. apply Hsrc, elem_of_app. auto. }
    { intros c1 c2 H1 H2. apply Hdis; apply elem_of_app; auto. }
    { intros c1 c2 H1 H2. apply Hinj; apply elem_of_app; auto. }
    assert (Hc : c ∈ (l ++ [c])%list).
    { apply elem_of_app. right. apply elem_of_cons. auto. }
    rewrite foldl_app. cbn [foldl]. unfold GSBucket.run_copy_blob at 1 3.
    assert (Hcur : foldl (GSBucket.run_copy_blob src) st l !! (src, blob c)
                   = st !! (src, blob c)).
    { apply IHb. intros c' Hc'. apply Hdis; [apply elem_of_app; auto|exact Hc]. }
    rewrite Hcur. destruct (Hsrc c Hc) as [v Hv]. rewrite Hv. split.
    + intros c' Hc'.
      destruct (decide ((destination_bucket c, new_name c)
                        = (destination_bucket c', new_name c'))) as [E|Hne].
      * rewrite <- E, lookup_insert_eq.
        rewrite <- (Hinj c c' Hc Hc' E). symmetry. exact Hv.
      * rewrite lookup_insert_ne by exact Hne.
        apply elem_of_app in Hc' as [Hc'|Hc'].
        -- apply IHa, Hc'.
        -- apply elem_of_cons in Hc' as [->|Hc']; [congruence|inversion Hc'].
    + intros x Hx. rewrite lookup_insert_ne by (apply Hx, Hc).
      apply IHb. intros c' Hc'. apply Hx, elem_of_app. auto.
Qed.


Section Copy.

Variable self : GSObject.
Variable to : string.
Variable st : gmap (string * string) (list byte).

Abbreviation src := (bucket_name self).
Abbreviation p := (prefix self).
Abbreviation d := (bucket_name (__init__ (copy_to self to))).
Abbreviation dst := (prefix (__init__ (copy_to self to))).

Lemma call_shape (c : copy_blob) :
  c ∈ GSObject.copy self to (GSBucket.list_blobs st src "") ->
  exists rest,
    c = {| blob := p +:+ rest; destination_bucket := d;
           new_name := dst +:+ rest |}
    /\ is_Some (st !! (src, p +:+ rest)) /\ p +:+ rest <> dst +:+ rest.
Proof.
  intros Hc. apply elem_of_copy in Hc as (Hin & Hp & Hb & Hn & Hne).
  apply elem_of_list_blobs in Hin as [Hin _].
  apply startswith_inv in Hp.
  exists (skip (String.length p) (blob c)).
  rewrite <- Hp. split; [|split; [exact Hin|]].
  - destruct c as [bl db nn]. cbn in *. subst db. f_equal.
    rewrite Hn. rewrite Hp at 1. apply replace_prefix.
  - intros E. apply Hne. rewrite Hn. rewrite Hp at 1.
    rewrite (replace_prefix p dst). symmetry. exact E.
Qed.

Lemma call_intro (rest : string) :
  is_Some (st !! (src, p +:+ rest)) -> p +:+ rest <> dst +:+ rest ->
  {| blob := p +:+ rest; destination_bucket := d; new_name := dst +:+ rest |}
  ∈ GSObject.copy self to (GSBucket.list_blobs st src "").
Proof.
  intros Hin Hne. apply elem_of_copy. cbn.
  assert (Hr : replace (p +:+ rest) (prefix self) dst = dst +:+ rest)
    by apply replace_prefix.
  split; [apply elem_of_list_blobs; split; [exact Hin|reflexivity]|].
  split; [apply startswith_app|]. split; [reflexivity|].
  split; [symmetry; exact Hr|]. intros E. apply Hne. symmetry. exact E.
Qed.

(** The store after [copy], whether it returned or raised. *)
Lemma copy_store :
  snd (GSBucket.copy self to st)
  = foldl (GSBucket.run_copy_blob src) st
          (GSObject.copy self to (GSBucket.list_blobs st src "")).
Proof.
  unfold GSBucket.copy.
  destruct (GSObject.copy self to (GSBucket.list_blobs st src ""));
    reflexivity.
Qed.

(** [move] raises with [copy] and deletes nothing, or deletes what [copy]
    has left. *)
Lemma move_cases :
  (GSObject.copy self to (GSBucket.list_blobs st src "") = []
   /\ GSBucket.move self to st = (Raise ValueError, st))
  \/ (GSObject.copy self to (GSBucket.list_blobs st src "") <> []
      /\ GSBucket.move self to st
         = (Return tt,
            GSBucket.delete self (snd (GSBucket.copy self to st)))).
Proof.
  unfold GSBucket.move, GSBucket.copy.
  destruct (GSObject.copy self to (GSBucket.list_blobs st src ""));
    [left|right]; split; try reflexivity; discriminate.
Qed.

(** Between different prefixes every listed key gives a call: an empty
    batch means an empty listing. *)
Lemma no_calls_no_keys :
  GSObject.copy self to (GSBucket.list_blobs st src "") = [] ->
  dst <> p ->
  forall k, startswith k p = true -> st !! (src, k) = None.
Proof.
  intros Hnil Hne k Hk. destruct (st !! (src, k)) as [v|] eqn:Ev;
    [exfalso|reflexivity].
  apply startswith_inv in Hk. rewrite Hk in Ev.
  assert (Hin : {| blob := p +:+ skip (String.length p) k;
                   destination_bucket := d;
                   new_name := dst +:+ skip (String.length p) k |}
                ∈ GSObject.copy self to (GSBucket.list_blobs st src "")).
  { apply call_intro; [rewrite Ev; eauto|].
    intros E. apply Hne. symmetry. apply (append_inj_r _ _ _ E). }
  rewrite Hnil in Hin. inversion Hin.
Qed.

Lemma copy_lookup :
  d <> src \/ (forall rest, startswith (dst +:+ rest) p = false) ->
  (forall rest,
     is_Some (st !! (src, p +:+ rest)) -> p +:+ rest <> dst +:+ rest ->
     snd (GSBucket.copy self to st) !! (d, dst +:+ rest)
     = st !! (src, p +:+ rest))
  /\ (forall x,
        (forall rest, is_Some (st !! (src, p +:+ rest)) ->
                      x <> (d, dst +:+ rest)) ->
        snd (GSBucket.copy self to st) !! x = st !! x).
Proof.
  intros Hsep. rewrite copy_store.
  destruct (foldl_copy src
              (GSObject.copy self to (GSBucket.list_blobs st src "")) st)
    as [Ha Hb].
  - intros c Hc. apply call_shape in Hc as (rest & -> & Hin & _). exact Hin.
  - intros c c' Hc Hc'.
    apply call_shape in Hc as (r & -> & _ & _).
    apply call_shape in Hc' as (r' & -> & _ & _).
    cbn [blob destination_bucket new_name].
    destruct Hsep as [Hd|Hs];
      [intros E; apply pair_equal_spec in E as [E _]; apply Hd; exact E|].
    intros E. apply pair_equal_spec in E as [_ E].
    specialize (Hs r). rewrite E, startswith_app in Hs. discriminate.
  - intros c c' Hc Hc'.
    apply call_shape in Hc as (r & -> & _ & _).
    apply call_shape in Hc' as (r' & -> & _ & _).
    cbn [blob destination_bucket new_name].
    intros E. apply pair_equal_spec in E as [_ E].
    apply append_inj_l in E. rewrite E. reflexivity.
  - split.
    + intros rest Hin Hne.
      apply (Ha _ (call_intro rest Hin Hne)).
    + intros x Hx. apply Hb. intros c Hc.
      apply call_shape in Hc as (r & -> & Hin & _).
      cbn [blob destination_bucket new_name].
      intros E. apply (Hx r Hin). symmetry. exact E.
Qed.

End Copy.

(** X3: Copying to another bucket, or to a prefix under which no key starts
    with the source prefix: every object under the source prefix is found
    under the destination prefix with its content, and every other object
    is as before. *)
Theorem copy_puts_objects_under_destination (self : GSObject) (to : string)
    (st : gmap (string * string) (list byte)) :
  let dest := __init__ (copy_to self to) in
  bucket_name dest <> bucket_name self
  \/ (forall rest, startswith (prefix dest +:+ rest) (prefix self) = false) ->
  prefix dest <> prefix self ->
  (forall rest,
     is_Some (st !! (bucket_name self, prefix self +:+ rest)) ->
     snd (GSBucket.copy self to st)
       !! (bucket_name dest, prefix dest +:+ rest)
     = st !! (bucket_name self, prefix self +:+ rest))
  /\ (forall x,
        (forall rest,
           is_Some (st !! (bucket_name self, prefix self +:+ rest)) ->
           x <> (bucket_name dest, prefix dest +:+ rest)) ->
        snd (GSBucket.copy self to st) !! x = st !! x).
Proof.
  intros dest Hsep Hne. destruct (copy_lookup self to st Hsep) as [Ha Hb].
  split; [|exact Hb]. intros rest Hin. apply Ha; [exact Hin|].
  intros E. apply Hne. symmetry. apply (append_inj_r _ _ rest). exact E.
Qed.


Lemma copy_puts_objects_under_destination_witness :
  let self := GSFolder "gs://bucket_a/a/b/c/" in
  let to := "gs://bucket_b/x/y/z" in
  let st := snd (GSBucket.copy self to GSBucket.bucket_a) in
  st !! ("bucket_b", "x/y/z/d/example.txt") = Some [x01]
  /\ st !! ("bucket_b", "x/y/z/example.txt") = Some [x02]
  /\ st !! ("bucket_a", "a/b/c/example.txt") = Some [x02]
  /\ st !! ("bucket_a", "a/other.txt") = Some [x03].
Proof.
  intros self to st.
  destruct (copy_puts_objects_under_destination self to GSBucket.bucket_a)
    as [Ha Hb].
  - left. discriminate.
  - discriminate.
  - split; [exact (Ha "d/example.txt" (mk_is_Some _ _ eq_refl))|].
    split; [exact (Ha "example.txt" (mk_is_Some _ _ eq_refl))|].
    split; apply Hb; intros rest _ [=].
Defined.

(** ** [move] *)

(** X4: Moving to another bucket under another prefix: the objects arrive
    under the destination prefix and nothing is left under the source
    prefix. *)
Theorem move_to_other_bucket (self : GSObject) (to : string)
    (st : gmap (string * string) (list byte)) :
  let dest := __init__ (copy_to self to) in
  bucket_name dest <> bucket_name self ->
  prefix dest <> prefix self ->
  (forall rest,
     is_Some (st !! (bucket_name self, prefix self +:+ rest)) ->
     snd (GSBucket.move self to st)
       !! (bucket_name dest, prefix dest +:+ rest)
     = st !! (bucket_name self, prefix self +:+ rest))
  /\ (forall k, startswith k (prefix self) = true ->
                snd (GSBucket.move self to st) !! (bucket_name self, k)
                = None).
Proof.
  intros dest Hb Hp.
  destruct (move_cases self to st) as [[Hnil Hm]|[_ Hm]];
    rewrite Hm; cbn [snd].
  - pose proof (no_calls_no_keys self to st Hnil Hp) as Hno. split.
    + intros rest [v Hv].
      rewrite (Hno _ (startswith_app _ _)) in Hv. discriminate.
    + exact Hno.
  - split.
    + intros rest Hin. rewrite delete_lookup.
      apply String.eqb_neq in Hb. rewrite Hb. cbn [andb].
      destruct (copy_lookup self to st) as [Ha _].
      { left. apply String.eqb_neq. exact Hb. }
      apply Ha; [exact Hin|]. intros E. apply Hp. symmetry.
      apply (append_inj_r _ _ rest). exact E.
    + intros k Hk. rewrite delete_lookup, String.eqb_refl, Hk. reflexivity.
Qed.

Lemma move_to_other_bucket_witness :
  let self := GSFolder "gs://bucket_a/a/b/c/" in
  let to := "gs://bucket_b/x/y/z" in
  let st := snd (GSBucket.move self to GSBucket.bucket_a) in
  st !! ("bucket_b", "x/y/z/d/example.txt") = Some [x01]
  /\ st !! ("bucket_b", "x/y/z/example.txt") = Some [x02]
  /\ st !! ("bucket_a", "a/b/c/d/example.txt") = None
  /\ st !! ("bucket_a", "a/b/c/example.txt") = None.
Proof.
  intros self to st.
  destruct (move_to_other_bucket self to GSBucket.bucket_a) as [Ha Hb].
  - discriminate.
  - discriminate.
  - split; [exact (Ha "d/example.txt" (mk_is_Some _ _ eq_refl))|].
    split; [exact (Ha "example.txt" (mk_is_Some _ _ eq_refl))|].
    split; apply Hb; reflexivity.
Defined.

Lemma append_assoc (a b c : string) : (a +:+ b) +:+ c = a +:+ (b +:+ c).
Proof.
  induction a as [|x a IH]; [reflexivity|].
  rewrite !append_cons, IH. reflexivity.
Qed.

Lemma startswith_trans (k q p : string) :
  startswith q p = true -> startswith k q = true -> startswith k p = true.
Proof.
  intros Hq Hk. apply startswith_inv in Hq, Hk.
  rewrite Hk, Hq, append_assoc. apply startswith_app.
Qed.

(** X5: [move] deletes by the source prefix after the copy.  When the
    destination lies in the same bucket and its prefix starts with the
    source prefix without being equal to it (a rename to a longer name, a
    folder moved below itself), the copies are deleted with the
    originals: nothing is left under the destination, and with an object
    under the source prefix [move] returns. *)
Theorem move_below_source_prefix_leaves_nothing (self : GSObject)
    (to : string) (st : gmap (string * string) (list byte)) :
  let dest := __init__ (copy_to self to) in
  bucket_name dest = bucket_name self ->
  startswith (prefix dest) (prefix self) = true ->
  prefix dest <> prefix self ->
  (forall k, startswith k (prefix dest) = true ->
             snd (GSBucket.move self to st) !! (bucket_name dest, k) = None)
  /\ GSBucket.blobs dest (snd (GSBucket.move self to st)) = []
  /\ (GSBucket.blobs self st <> [] ->
      fst (GSBucket.move self to st) = Return tt).
Proof.
  intros dest Hb Hp Hne.
  assert (H : forall k, startswith k (prefix dest) = true ->
                snd (GSBucket.move self to st) !! (bucket_name dest, k)
                = None).
  { intros k Hk.
    destruct (move_cases self to st) as [[Hnil Hm]|[_ Hm]];
      rewrite Hm; cbn [snd].
    - rewrite Hb. apply (no_calls_no_keys self to st Hnil Hne).
      exact (startswith_trans k _ _ Hp Hk).
    - rewrite delete_lookup, Hb, String.eqb_refl.
      rewrite (startswith_trans k _ _ Hp Hk). reflexivity. }
  split; [exact H|]. split.
  - apply elem_of_nil_inv. intros k Hk. unfold GSBucket.blobs in Hk.
    apply elem_of_list_blobs in Hk as [[v Hv] Hk].
    rewrite (H k Hk) in Hv. discriminate.
  - intros Hsome.
    destruct (move_cases self to st) as [[Hnil Hm]|[_ Hm]];
      rewrite Hm; [exfalso|reflexivity].
    apply Hsome. apply elem_of_nil_inv. intros k Hk.
    unfold GSBucket.blobs in Hk.
    apply elem_of_list_blobs in Hk as [[v Hv] Hk].
    rewrite (no_calls_no_keys self to st Hnil Hne k Hk) in Hv.
    discriminate.
Qed.

Lemma move_below_source_prefix_leaves_nothing_witness :
  let self := __init__ "gs://bucket_a/a/b" in
  let to := "gs://bucket_a/a/b_v2" in
  let st := snd (GSBucket.move self to GSBucket.bucket_a) in
  (forall k, startswith k "a/b_v2" = true -> st !! ("bucket_a", k) = None)
  /\ GSBucket.blobs (__init__ to) st = []
  /\ fst (GSBucket.move self to GSBucket.bucket_a) = Return tt.
Proof.
  intros self to st.
  destruct (move_below_source_prefix_leaves_nothing self to
              GSBucket.bucket_a) as (H1 & H2 & H3);
    [reflexivity | reflexivity | discriminate |].
  split; [exact H1|]. split; [exact H2|]. apply H3.
  vm_compute. discriminate.
Defined.

(** ** [GSFolder] *)

(** X6: The prefix of a folder is empty (the bucket root) or ends with the
    separator; a prefix of that shape is kept as it is. *)
Theorem folder_prefix_shape (gs_path : string) :
  (prefix (GSFolder gs_path) = ""
   \/ endswith (prefix (GSFolder gs_path)) "/" = true)
  /\ (prefix (__init__ gs_path) = ""
      \/ endswith (prefix (__init__ gs_path)) "/" = true ->
      prefix (GSFolder gs_path) = prefix (__init__ gs_path))
  /\ (prefix (__init__ gs_path) <> "" ->
      endswith (prefix (__init__ gs_path)) "/" = false ->
      prefix (GSFolder gs_path) = prefix (__init__ gs_path) +:+ "/").
Proof.
  unfold GSFolder. cbn [prefix].
  destruct (String.eqb (prefix (__init__ gs_path)) "") eqn:E0;
    destruct (endswith (prefix (__init__ gs_path)) "/") eqn:E1;
    cbn [negb andb].
  - apply String.eqb_eq in E0. repeat split; auto. congruence.
  - apply String.eqb_eq in E0. repeat split; auto. congruence.
  - repeat split; auto. intros _ [=].
  - apply String.eqb_neq in E0. split; [right; apply endswith_app|].
    split; [|reflexivity]. intros [H|H]; congruence.
Qed.

End BucketProofs.

(** * More properties of the stream *)

Module StreamMore.
Import GSFile StreamSpec StreamProofs.
#[local] Arguments truthy_bytes : simpl never.
#[local] Arguments truthy_int : simpl never.

Lemma read_world (size : option Z) (s : State) :
  remote (world (snd (read size s))) = remote (world s).
Proof. break_state s. run. split_paths; reflexivity. Qed.

(** The handle after a read: made, if the read went to the bucket. *)
Lemma read_handle (size : option Z) (s : State) :
  __blob (self (snd (read size s)))
  = match __temp_file (self s) with
    | Some _ => __blob (self s)
    | None => Some (blob_size_of s)
    end.
Proof.
  unfold blob_size_of. break_state s.
  destruct __temp_file0 as [name|], __blob0 as [h|], remote0 as [c|];
    cbn [__blob self world remote fmap option_fmap option_map];
    run; split_paths; reflexivity.
Qed.

(** A read leaves the handle in step. *)
Lemma read_in_step (size : option Z) (s : State) :
  in_step s -> in_step (snd (read size s)).
Proof.
  intros H. unfold in_step, blob_size_of in *.
  rewrite read_handle, read_world.
  destruct (__temp_file (self s)); [exact H|].
  unfold blob_size_of. destruct (__blob (self s)); [exact H|reflexivity].
Qed.

(** X7: On a stream that reads from the bucket (no temp file, handle in
    step), two reads in a row return adjacent slices, when the first one
    ends before the last byte of the object and not at byte 0. *)
Theorem read_consecutive (s : State) (c : list byte) (n m : Z) :
  __temp_file (self s) = None -> remote (world s) = Some c ->
  in_step s ->
  1 <= n -> 1 <= m ->
  0 <= __offset (self s) -> __offset (self s) + n < len c ->
  __offset (self s) + n - 1 <> 0 ->
  let off := __offset (self s) in
  let s1 := snd (read (Some n) s) in
  let s2 := snd (read (Some m) s1) in
  exists d1 d2,
    fst (read (Some n) s) = Return (PyBytes d1)
    /\ fst (read (Some m) s1) = Return (PyBytes d2)
    /\ d1 ++ d2 = take (Z.to_nat (n + m)) (drop (Z.to_nat off) c)
    /\ __offset (self s2) = off + len (d1 ++ d2).
Proof.
  intros Ht Hr Hstep Hn Hm Ho Hlt He off s1 s2.
  assert (Hin : 0 <= __offset (self s) < len c) by lia.
  destruct (read_range s c n Ht Hr Hstep Hn Hin He) as (H1 & _ & Hoff1).
  fold off in H1, Hoff1. fold s1 in Hoff1.
  assert (Hl1 : len (take (Z.to_nat n) (drop (Z.to_nat off) c)) = n).
  { unfold len in *. rewrite length_take, length_drop. lia. }
  rewrite Hl1 in Hoff1.
  assert (Ht1 : __temp_file (self s1) = None).
  { destruct (read_same (Some n) s) as (_ & _ & Hx & _). subst s1.
    rewrite Hx. exact Ht. }
  assert (Hr1 : remote (world s1) = Some c).
  { subst s1. rewrite read_world. exact Hr. }
  assert (Hstep1 : in_step s1) by (apply read_in_step, Hstep).
  destruct (read_range s1 c m Ht1 Hr1 Hstep1 Hm) as (H2 & _ & Hoff2).
  { rewrite Hoff1. lia. }
  { rewrite Hoff1. lia. }
  rewrite Hoff1 in H2, Hoff2. fold s2 in Hoff2.
  eexists _, _. split; [exact H1|]. split; [exact H2|].
  assert (Hcat : take (Z.to_nat n) (drop (Z.to_nat off) c)
                 ++ take (Z.to_nat m) (drop (Z.to_nat (off + n)) c)
                 = take (Z.to_nat (n + m)) (drop (Z.to_nat off) c)).
  { replace (Z.to_nat (off + n)) with (Z.to_nat off + Z.to_nat n)%nat by lia.
    rewrite <- drop_drop.
    replace (Z.to_nat (n + m)) with (Z.to_nat n + Z.to_nat m)%nat by lia.
    apply take_take_drop. }
  split; [exact Hcat|].
  rewrite Hoff2, Hcat. unfold len in *.
  rewrite !length_take, !length_drop. lia.
Qed.

Lemma read_consecutive_witness :
  let s := new_stream (world_with [x61; x62; x63; x64; x65]) in
  let s1 := snd (read (Some 2) s) in
  let s2 := snd (read (Some 2) s1) in
  exists d1 d2,
    fst (read (Some 2) s) = Return (PyBytes d1)
    /\ fst (read (Some 2) s1) = Return (PyBytes d2)
    /\ d1 ++ d2 = [x61; x62; x63; x64]
    /\ __offset (self s2) = 0 + len (d1 ++ d2).
Proof.
  intros s s1 s2.
  apply (read_consecutive s [x61; x62; x63; x64; x65] 2 2);
    first [reflexivity | discriminate].
Defined.

(** X8: On a stream that reads from the bucket (no temp file, no pending
    write, handle in step), [seek(-n, 2)] then [read()] gives the last
    [n] bytes of the object. *)
Theorem seek_end_read_tail (s : State) (c : list byte) (n : Z) :
  __temp_file (self s) = None ->
  truthy_bytes (__buffer (self s)) = false ->
  remote (world s) = Some c -> in_step s -> 1 <= n <= len c ->
  let s1 := snd (seek (- n) 2 s) in
  fst (seek (- n) 2 s) = Return (len c - n)
  /\ fst (read None s1) = Return (PyBytes (drop (Z.to_nat (len c - n)) c))
  /\ __offset (self (snd (read None s1))) = len c.
Proof.
  intros Ht Hb Hr Hin Hn s1.
  assert (Hseek : seek (- n) 2 s
                  = (Return (len c - n),
                     {| self := with_offset (len c - n)
                                  (self (with_handle s));
                        world := world s |})).
  { unfold with_handle, blob_size_of. break_state s.
    handle_cases Hin; run_outer; rewrite Hb; cbn;
      replace (len c + - n) with (len c - n) by lia; reflexivity. }
  subst s1. rewrite Hseek. cbn [fst snd]. split; [reflexivity|].
  set (s1 := {| self := with_offset (len c - n) (self (with_handle s));
                world := world s |}).
  destruct (read_rest s1 c None) as (H1 & _ & H2);
    try reflexivity; try assumption.
  { cbn. lia. }
  split; [exact H1|exact H2].
Qed.

Lemma seek_end_read_tail_witness :
  let s := new_stream (world_with [x61; x62; x63; x64; x65]) in
  let s1 := snd (seek (- 2) 2 s) in
  fst (seek (- 2) 2 s) = Return 3
  /\ fst (read None s1) = Return (PyBytes [x64; x65])
  /\ __offset (self (snd (read None s1))) = 5.
Proof.
  intros s s1.
  apply (seek_end_read_tail s [x61; x62; x63; x64; x65] 2);
    first [reflexivity | split; discriminate].
Defined.

(** ** Streams that are not written to *)

Lemma quiet_trans (s1 s2 s3 : State) :
  quiet s1 s2 -> quiet s2 s3 -> quiet s1 s3.
Proof.
  intros (Hr1 & Hf1 & _ & _ & g1 & Hg1 & Hq1)
         (Hr2 & Hf2 & Ht2 & Hb2 & g2 & Hg2 & Hq2).
  unfold quiet. rewrite Hr2, Hf2. repeat split; try assumption.
  exists (g2 ++ g1). rewrite Hg2, Hg1, app_assoc, forallb_app, Hq1, Hq2.
  auto.
Qed.

Lemma quiet_same (s s' : State) :
  world s' = world s ->
  __temp_file (self s') = None -> __buffer (self s') = None -> quiet s s'.
Proof.
  intros Hw Ht Hb. unfold quiet. rewrite Hw. repeat split; try assumption.
  exists []. auto.
Qed.

Lemma quiet_get (s s' : State) (a : Z) (b : option Z) :
  world s' = log (GET a b) (world s) ->
  __temp_file (self s') = None -> __buffer (self s') = None -> quiet s s'.
Proof.
  intros Hw Ht Hb. unfold quiet. rewrite Hw. repeat split; try assumption.
  exists [GET a b]. auto.
Qed.

Ltac walk :=
  repeat (cbn; try unfold truthy_bytes, truthy_int; cbn;
          match goal with
          | |- context [if ?b then _ else _] => destruct b
          | |- context [match ?x with Some _ => _ | None => _ end] =>
              destruct x
          end).

Ltac quiet_paths :=
  walk; cbn;
  first [ apply quiet_same; reflexivity
        | eapply quiet_get; reflexivity ].

Lemma quiet_read (size : option Z) (s : State) :
  __temp_file (self s) = None -> __buffer (self s) = None ->
  quiet s (snd (read size s)).
Proof. intros Ht Hb. break_state s. run. quiet_paths. Qed.

Lemma quiet_seek (pos whence : Z) (s : State) :
  __temp_file (self s) = None -> __buffer (self s) = None ->
  quiet s (snd (seek pos whence s)).
Proof.
  intros Ht Hb. break_state s. run. quiet_paths.
Qed.

Lemma quiet_is_gz (s : State) :
  __temp_file (self s) = None -> __buffer (self s) = None ->
  quiet s (snd (is_gz s)).
Proof.
  intros Ht Hb. break_state s. run. quiet_paths.
Qed.

Lemma quiet_close (s : State) :
  __temp_file (self s) = None -> __buffer (self s) = None ->
  quiet s (snd (close s)).
Proof.
  intros Ht Hb. break_state s. run. quiet_paths.
Qed.

Lemma quiet_do_call (c : call) (s : State) :
  writes_nothing_call c = true ->
  __temp_file (self s) = None -> __buffer (self s) = None ->
  quiet s (snd (do_call c s)).
Proof.
  intros Hc Ht Hb. destruct c; try discriminate; cbn [do_call].
  - pose proof (quiet_read size s Ht Hb) as H.
    unfold mbind, M_bind, mret, M_ret.
    destruct (read size s) as [[?|?] ?]; exact H.
  - pose proof (quiet_seek pos whence s Ht Hb) as H.
    unfold mbind, M_bind, mret, M_ret.
    destruct (seek pos whence s) as [[?|?] ?]; exact H.
  - apply quiet_same; [reflexivity|exact Ht|exact Hb].
  - rewrite flush_idle by assumption.
    apply quiet_same; [reflexivity|exact Ht|exact Hb].
  - pose proof (quiet_is_gz s Ht Hb) as H.
    unfold mbind, M_bind, mret, M_ret.
    destruct (is_gz s) as [[?|?] ?]; exact H.
  - apply quiet_close; assumption.
  - apply quiet_same; [reflexivity|exact Ht|reflexivity].
Qed.

(** X9: Client code without a [write] never uploads, never downloads the
    object to a file and never leaves a temp file. *)
Theorem without_write_nothing_is_stored (p : stmt) (s : State) :
  writes_nothing p = true ->
  __temp_file (self s) = None -> __buffer (self s) = None ->
  quiet s (snd (exec p s)).
Proof.
  revert s. induction p as [c|p IHp q IHq|p IHp h IHh|e|];
    intros s Hp Ht Hb; cbn [exec writes_nothing] in *.
  - apply quiet_do_call; assumption.
  - apply andb_true_iff in Hp as [Hp Hq].
    specialize (IHp s Hp Ht Hb). unfold mbind, M_bind.
    destruct (exec p s) as [[[]|e] s1]; cbn in *; [|exact IHp].
    eapply quiet_trans; [exact IHp|].
    apply IHq; [exact Hq|apply IHp|apply IHp].
  - apply andb_true_iff in Hp as [Hp Hh].
    specialize (IHp s Hp Ht Hb).
    destruct (exec p s) as [[[]|e] s1]; cbn in *; [exact IHp|].
    eapply quiet_trans; [exact IHp|].
    apply IHh; [exact Hh|apply IHp|apply IHp].
  - apply quiet_same; [reflexivity|exact Ht|exact Hb].
  - apply quiet_same; [reflexivity|exact Ht|exact Hb].
Qed.

Lemma without_write_nothing_is_stored_witness :
  let s := new_stream (world_with [x1f; x8b; x08]) in
  let p := Seq (Call Open)
             (Seq (Call IsGz)
                (Seq (TryExcept (Call (Seek 0 3)) (Call (Read (Some 2))))
                   (Seq (Call Flush) (Call Close)))) in
  quiet s (snd (exec p s)).
Proof.
  intros s p. apply (without_write_nothing_is_stored p s); reflexivity.
Defined.

(** ** The local files *)

(** X10: Whatever the client code, the local files that are not the stream's
    temp file keep their content, and the only file that can be added is
    the stream's current temp file. *)
Theorem other_files_untouched (F : gmap positive (list byte)) (p : stmt)
    (s : State) :
  tidy F s ->
  let s' := snd (exec p s) in
  (forall q c, F !! q = Some c -> files (world s') !! q = Some c)
  /\ (forall q, F !! q = None -> is_Some (files (world s') !! q) ->
                __temp_file (self s') = Some q).
Proof.
  intros Hs s'. destruct (keeps_exec F p s Hs) as [Ho _]. fold s' in Ho.
  unfold owns in Ho. destruct (__temp_file (self s')) as [t|].
  - destruct Ho as (HFt & _ & Hdel). split.
    + intros q c Hq. assert (q <> t) by congruence.
      rewrite <- Hdel in Hq. rewrite lookup_delete_ne in Hq by congruence.
      exact Hq.
    + intros q Hq [c Hc]. destruct (decide (q = t)) as [->|Hne]; [done|].
      rewrite <- Hdel, lookup_delete_ne in Hq by congruence. congruence.
  - rewrite Ho. split; [auto|]. intros q Hq [c Hc]. congruence.
Qed.

Lemma other_files_untouched_witness :
  let F : gmap positive (list byte) := {[ 5%positive := [x41] ]} in
  let s := new_stream {| remote := Some [x58]; upload_ok := true;
                         files := F; requests := [];
                         decode := ascii_reader |} in
  let p := Seq (Call Open) (Seq (Call (Write [x61])) (Call Flush)) in
  let s' := snd (exec p s) in
  files (world s') !! 5%positive = Some [x41]
  /\ (forall q, F !! q = None -> is_Some (files (world s') !! q) ->
                __temp_file (self s') = Some q).
Proof.
  intros F s p s'.
  destruct (other_files_untouched F p s) as [Ha Hb].
  - split; [reflexivity|]. intros _. split; reflexivity.
  - split; [apply Ha; reflexivity|exact Hb].
Defined.


(** ** Sessions of small writes *)

Lemma write_small (s : State) (b : list byte) :
  __closed (self s) = false ->
  len (default [] (__buffer (self s)) ++ b) <= 1024 * 1024 ->
  write b s =
    (Return (len b),
     {| self :=
          with_offset (__offset (self s) + len b)
            (with_buffer (Some (default [] (__buffer (self s)) ++ b))
               (match __buffer (self s) with
                | None => with_buffer_offset (Some (__offset (self s))) (self s)
                | Some _ => self s
                end));
        world := world s |}).
Proof.
  intros Hc Hle. break_state s. run_outer.
  destruct __buffer0 as [old|]; cbn in *;
    rewrite (proj2 (Z.ltb_ge _ _) Hle); reflexivity.
Qed.

Lemma concat_cons_len (b : list byte) (bs : list (list byte)) :
  len (concat (b :: bs)) = len b + len (concat bs).
Proof. cbn. unfold len. rewrite length_app. lia. Qed.

(** Small writes in a row only grow the buffer. *)
Lemma exec_write_all (bs : list (list byte)) (s : State) :
  __closed (self s) = false ->
  len (default [] (__buffer (self s)) ++ concat bs) <= 1024 * 1024 ->
  fst (exec (write_all bs) s) = Return tt
  /\ world (snd (exec (write_all bs) s)) = world s
  /\ __closed (self (snd (exec (write_all bs) s))) = false
  /\ __temp_file (self (snd (exec (write_all bs) s))) = __temp_file (self s)
  /\ default [] (__buffer (self (snd (exec (write_all bs) s))))
     = default [] (__buffer (self s)) ++ concat bs
  /\ __offset (self (snd (exec (write_all bs) s)))
     = __offset (self s) + len (concat bs).
Proof.
  revert s. induction bs as [|b bs IH]; intros s Hc Hle.
  - cbn. rewrite app_nil_r. repeat split; try assumption.
    unfold len. cbn. lia.
  - cbn [write_all exec do_call]. unfold mbind, M_bind, mret, M_ret.
    assert (Hb : len (default [] (__buffer (self s)) ++ b) <= 1024 * 1024).
    { revert Hle. cbn [concat]. unfold len. rewrite !length_app. lia. }
    rewrite (write_small s b Hc Hb).
    set (s1 := {| self := _; world := world s |}).
    assert (Hc1 : __closed (self s1) = false).
    { subst s1. destruct s as [g w]; destruct g; cbn in *.
      destruct __buffer0; exact Hc. }
    assert (Hb1 : default [] (__buffer (self s1))
                  = default [] (__buffer (self s)) ++ b) by reflexivity.
    assert (Ht1 : __temp_file (self s1) = __temp_file (self s)).
    { subst s1. destruct s as [g w]; destruct g; cbn in *.
      destruct __buffer0; reflexivity. }
    assert (Ho1 : __offset (self s1) = __offset (self s) + len b)
      by reflexivity.
    destruct (IH s1 Hc1) as (H1 & H2 & H3 & H4 & H5 & H6).
    { rewrite Hb1, <- app_assoc. exact Hle. }
    destruct (exec (write_all bs) s1) as [r s2]. cbn [fst snd] in *.
    subst r. split; [reflexivity|]. split; [exact H2|].
    split; [exact H3|]. split; [congruence|].
    split; [rewrite H5, Hb1, <- app_assoc; reflexivity|].
    rewrite H6, Ho1. cbn [concat]. unfold len. rewrite length_app. lia.
Qed.

(** X11: A [with] block of small writes appends their concatenation to the
    object (creates it when there is none) and leaves no temp file. *)
Theorem with_writes_appends (bs : list (list byte)) (s : State) :
  __temp_file (self s) = None -> upload_ok (world s) = true ->
  concat bs <> [] -> len (concat bs) <= 1024 * 1024 ->
  let s' := snd (with_ (exec (write_all bs)) s) in
  fst (with_ (exec (write_all bs)) s) = Return tt
  /\ remote (world s') = Some (default [] (remote (world s)) ++ concat bs)
  /\ files (world s') = files (world s)
  /\ __closed (self s') = true /\ __temp_file (self s') = None.
Proof.
  intros Ht Hok Hne Hle s'.
  assert (Hbs : bs <> []) by (intros ->; apply Hne; reflexivity).
  set (s0 := snd (open s)).
  assert (H0 : open s = (Return tt, s0)) by reflexivity.
  destruct (exec_write_all bs s0 eq_refl) as (H1 & H2 & H3 & H4 & H5 & H6).
  { exact Hle. }
  assert (Hrun : with_ (exec (write_all bs)) s
                 = (match fst (close (snd (exec (write_all bs) s0))) with
                    | Return _ => Return tt
                    | Raise e => Raise e
                    end, snd (close (snd (exec (write_all bs) s0))))).
  { unfold with_, __enter__, __exit__, try_finally, mbind, M_bind.
    rewrite H0. cbv beta iota.
    destruct (exec (write_all bs) s0) as [r s1]. cbn in H1. subst r.
    cbn [fst snd]. destruct (close s1) as [[[]|e] s2]; reflexivity. }
  set (s1 := snd (exec (write_all bs) s0)) in *.
  assert (Ht1 : __temp_file (self s1) = None).
  { rewrite H4. exact Ht. }
  assert (Hbuf : __buffer (self s1) = Some (concat bs)).
  { cbn in H5. destruct (__buffer (self s1)) as [buf|]; cbn in H5.
    - rewrite H5. reflexivity.
    - exfalso. apply Hne. symmetry. exact H5. }
  assert (Hflush : flush s1
                   = (Return tt,
                      {| self :=
                           with_blob
                             (Some (Some (len (default [] (remote (world s))
                                               ++ concat bs))))
                             (self (appended_first s1 (concat bs)));
                         world :=
                           with_remote
                             (Some (default [] (remote (world s)) ++ concat bs))
                             (log (PUT (default [] (remote (world s))
                                        ++ concat bs))
                                  (world (appended_first s1 (concat bs)))) |})).
  { unfold flush, mbind, M_bind.
    rewrite (append_first s1 (concat bs)) by assumption.
    unfold appended_first. rewrite H2. cbn.
    unfold upload_from_filename, blob, attr, assign, ask, update, mbind,
      M_bind, mret, M_ret, raise.
    cbn. change (world s0) with (world s).
    destruct (remote (world s)) as [c|]; cbn;
      rewrite lookup_insert_eq; cbn; rewrite Hok; reflexivity. }
  subst s'. rewrite Hrun.
  rewrite (close_open s1 H3) by (intros p Hp; congruence).
  rewrite Hflush. cbn.
  repeat split.
  rewrite H2. change (world s0) with (world s).
  assert (Hfresh : files (world s) !! fresh (dom (files (world s))) = None).
  { apply not_elem_of_dom, is_fresh. }
  destruct (remote (world s)); cbn;
    rewrite delete_insert_eq, delete_id by exact Hfresh; reflexivity.
Qed.

Lemma with_writes_appends_witness :
  let s := new_stream (world_with [x58]) in
  let bs := [[x61]; []; [x62; x63]] in
  let s' := snd (with_ (exec (write_all bs)) s) in
  fst (with_ (exec (write_all bs)) s) = Return tt
  /\ remote (world s') = Some [x58; x61; x62; x63]
  /\ files (world s') = ∅
  /\ __closed (self s') = true /\ __temp_file (self s') = None.
Proof.
  intros s bs s'.
  apply (with_writes_appends bs s);
    first [reflexivity | discriminate].
Defined.


(** ** A second flush *)

(** X12: After a first flush the stream has a temp file, and the next
    [__append] reopens it with ['w+b'], which empties it, and writes the
    new buffer at the offset the double count has reached: when that
    write ends inside the range of file offsets, the object uploaded by
    the second flush is zeros followed by the second write. *)
Theorem second_flush_rewrites_object (s : State) (b1 b2 : list byte) :
  __temp_file (self s) = None -> upload_ok (world s) = true ->
  0 <= __offset (self s) ->
  __offset (self s) + 2 * len b1 + len b2 <= max_offset ->
  b1 <> [] -> b2 <> [] ->
  len b1 <= 1024 * 1024 -> len b2 <= 1024 * 1024 ->
  let run := open;; write b1;; flush;; write b2;; flush in
  fst (run s) = Return tt
  /\ remote (world (snd (run s)))
     = Some (replicate (Z.to_nat (__offset (self s) + 2 * len b1)) x00 ++ b2).
Proof.
  intros Ht Hok Ho Hmax Hn1 Hn2 Hl1 Hl2 run. subst run.
  destruct s as [[bl off cl buf bo tf gz] [rem ok fs rq dec]].
  cbn in *. subst.
  assert (Hb2 : 0 <= len b2) by (unfold len; lia).
  run_outer.
  rewrite (proj2 (Z.ltb_ge _ _) Hl1). cbn.
  erewrite append_first by (cbn; eauto). cbn.
  destruct bl as [h|], rem as [c|]; cbn; rewrite lookup_insert_eq; cbn;
    rewrite (proj2 (Z.ltb_ge _ _) Hl2); cbn;
    (erewrite append_again;
       [| reflexivity | exact Hn2 | reflexivity
        | reflexivity | cbn; unfold len in *; lia ]);
    cbn; rewrite lookup_insert_eq; cbn;
    (split; [reflexivity|]); do 2 f_equal; f_equal; lia.
Qed.

Lemma second_flush_rewrites_object_witness :
  let s := new_stream (world_with [x58]) in
  let run := open;; write [x61];; flush;; write [x62];; flush in
  fst (run s) = Return tt
  /\ remote (world (snd (run s))) = Some [x00; x00; x62].
Proof.
  intros s run.
  apply (second_flush_rewrites_object s [x61] [x62]);
    first [reflexivity | discriminate].
Defined.

(** ** [create] and [upload_from_file] *)

(** X13: [create] never replaces an object: an existing one is left alone
    without any request, a missing one becomes the empty object, and a
    second [create] does nothing. *)
Theorem create_is_idempotent (s : State) :
  upload_ok (world s) = true ->
  remote (world (snd (create s))) = Some (default [] (remote (world s)))
  /\ self (snd (create s)) = self s
  /\ files (world (snd (create s))) = files (world s)
  /\ (forall c, remote (world s) = Some c -> create s = (Return tt, s))
  /\ create (snd (create s)) = (Return tt, snd (create s)).
Proof.
  intros Hok. destruct s as [g [rem ok fs rq dec]]. cbn in Hok. subst ok.
  unfold create, upload_from_string, blob_exists, ask, update, raise,
    mbind, M_bind, mret, M_ret. cbn.
  destruct rem as [c|]; cbn; repeat split; try discriminate.
Qed.

Lemma create_is_idempotent_witness :
  let s := new_stream empty_world in
  remote (world (snd (create s))) = Some []
  /\ self (snd (create s)) = self s
  /\ files (world (snd (create s))) = files (world s)
  /\ (forall c, remote (world s) = Some c -> create s = (Return tt, s))
  /\ create (snd (create s)) = (Return tt, snd (create s)).
Proof.
  intros s. apply (create_is_idempotent s). reflexivity.
Defined.

(** X14: [upload_from_file] raises [FileNotFoundError] and changes nothing
    when the local file is missing; otherwise the object becomes the
    file's content, which a following [read()] returns. *)
Theorem upload_from_file_then_read (s : State) (path : positive) :
  __temp_file (self s) = None -> __offset (self s) = 0 ->
  upload_ok (world s) = true ->
  (files (world s) !! path = None ->
   upload_from_file path s = (Raise FileNotFoundError, s))
  /\ (forall c, files (world s) !! path = Some c -> c <> [] ->
       fst ((upload_from_file path;; read None) s) = Return (PyBytes c)
       /\ remote (world (snd ((upload_from_file path;; read None) s)))
          = Some c).
Proof.
  intros Ht Ho Hok. split.
  - intros E. unfold upload_from_file, ask, raise, mbind, M_bind, mret, M_ret.
    cbn. rewrite E. reflexivity.
  - intros c E Hc.
    assert (Hup : upload_from_file path s
                  = (Return true,
                     {| self := with_blob (Some (Some (len c))) (self s);
                        world := with_remote (Some c)
                                   (log (PUT c) (world s)) |})).
    { unfold upload_from_file, blob_upload_from_file, upload_from_string,
        f_read, blob, slice, attr, assign, ask, update, raise, mbind,
        M_bind, mret, M_ret.
      cbn. rewrite E. cbn.
      destruct (__blob (self s)); cbn; rewrite E; cbn; rewrite Hok;
        reflexivity. }
    unfold mbind, M_bind. rewrite Hup. cbv beta iota.
    set (s1 := {| self := with_blob _ (self s); world := _ |}).
    assert (Hlen : 0 < len c).
    { destruct c; [contradiction|]. unfold len. cbn [length]. lia. }
    destruct (read_rest s1 c None) as (H1 & _ & _);
      try reflexivity; try assumption.
    { cbn. lia. }
    split.
    + rewrite H1. cbn. rewrite Ho. reflexivity.
    + rewrite read_world. reflexivity.
Qed.

Lemma upload_from_file_then_read_witness :
  let s := new_stream {| remote := None; upload_ok := true;
                         files := {[ 7%positive := [x61; x62] ]};
                         requests := []; decode := ascii_reader |} in
  upload_from_file 8%positive s = (Raise FileNotFoundError, s)
  /\ fst ((upload_from_file 7%positive;; read None) s)
     = Return (PyBytes [x61; x62])
  /\ remote (world (snd ((upload_from_file 7%positive;; read None) s)))
     = Some [x61; x62].
Proof.
  intros s.
  destruct (upload_from_file_then_read s 8%positive) as [Ha _];
    try reflexivity.
  destruct (upload_from_file_then_read s 7%positive) as [_ Hb];
    try reflexivity.
  split; [apply Ha; reflexivity|].
  apply (Hb [x61; x62]); [reflexivity|discriminate].
Defined.

(** ** A stream on a key without object *)

(** X22: Without an object under the key, on a stream with neither temp
    file nor pending buffer whose handle is in step (still to be made, or
    made when there was no object), [read] returns [None], while [seek]
    from the end and [is_gz] raise [TypeError] on the missing size; the
    world is as before, no data is transferred, and of the stream only
    the handle changes: it is made. *)
Theorem missing_object_read_seek_is_gz (s : State) :
  remote (world s) = None -> in_step s ->
  __temp_file (self s) = None ->
  truthy_bytes (__buffer (self s)) = false ->
  (forall size, read size s = (Return PyNone, with_handle s))
  /\ (forall pos, seek pos 2 s = (Raise TypeError, with_handle s))
  /\ (__gz (self s) = None -> is_gz s = (Raise TypeError, with_handle s)).
Proof.
  unfold with_handle, blob_size_of.
  destruct s as [[bl off cl buf bo tf gz] [rem ok fs rq dec]]. cbn.
  intros -> Hin -> Hb. unfold in_step, blob_size_of in Hin. cbn in Hin.
  destruct bl as [h|]; [subst h|]; (split; [|split]);
    first [ intros size; run; reflexivity
          | intros pos; run_outer; rewrite Hb; reflexivity
          | intros ->; run; reflexivity ].
Qed.

Lemma missing_object_read_seek_is_gz_witness :
  let s := new_stream empty_world in
  (forall size, read size s = (Return PyNone, with_handle s))
  /\ (forall pos, seek pos 2 s = (Raise TypeError, with_handle s))
  /\ (__gz (self s) = None -> is_gz s = (Raise TypeError, with_handle s)).
Proof.
  intros s. apply (missing_object_read_seek_is_gz s); reflexivity.
Defined.

End StreamMore.

(** * Properties of [AString] and [FileName] *)

Module StringProofs.
Import GSObject AString TextSpec CopyProofs BucketProofs.

Local Open Scope string_scope.

(** ** [join], [append] and [prepend] *)

Lemma join_cons (d x : string) (l : list string) :
  l <> [] -> join d (x :: l) = x +:+ d +:+ join d l.
Proof. destruct l; [contradiction|reflexivity]. Qed.

Lemma join_app (d : string) (l1 l2 : list string) :
  l1 <> [] -> l2 <> [] ->
  join d (l1 ++ l2)%list = join d l1 +:+ d +:+ join d l2.
Proof.
  induction l1 as [|x l1 IH]; intros H1 H2; [contradiction|].
  destruct l1 as [|y l1].
  - cbn [app]. rewrite join_cons by exact H2. reflexivity.
  - change ((x :: y :: l1) ++ l2)%list with (x :: (y :: l1) ++ l2)%list.
    rewrite join_cons by discriminate.
    rewrite IH by (discriminate || exact H2).
    rewrite (join_cons d x (y :: l1)) by discriminate.
    rewrite !append_assoc. reflexivity.
Qed.

Lemma join_join_l (d x : string) (l l2 : list string) :
  join d (join d (x :: l) :: l2) = join d (x :: l ++ l2)%list.
Proof.
  destruct l2 as [|y l2]; [rewrite app_nil_r; reflexivity|].
  rewrite join_cons by discriminate.
  change (x :: l ++ y :: l2)%list with ((x :: l) ++ y :: l2)%list.
  rewrite join_app by discriminate. reflexivity.
Qed.

Lemma join_join_r (d x : string) (l1 l : list string) :
  join d (l1 ++ [join d (x :: l)])%list = join d (l1 ++ x :: l)%list.
Proof.
  destruct l1 as [|y l1]; [reflexivity|].
  rewrite !join_app by discriminate. reflexivity.
Qed.

(** X15: Appending and prepending lists with one delimiter can be done in any
    order and in any number of steps: the result is the join of the
    prepended items, the string and the appended items. *)
Theorem append_prepend_compose (self d : string) (l1 l2 l3 : list string) :
  append (prepend self (List l1) d) (List l2) d
  = join d (l1 ++ self :: l2)%list
  /\ prepend (append self (List l2) d) (List l1) d
     = join d (l1 ++ self :: l2)%list
  /\ append (append self (List l2) d) (List l3) d
     = append self (List (l2 ++ l3)%list) d
  /\ prepend (prepend self (List l2) d) (List l1) d
     = prepend self (List (l1 ++ l2)%list) d
  /\ append self (List []) d = self /\ prepend self (List []) d = self.
Proof.
  unfold append, prepend. cbn [app]. repeat split.
  - destruct l1 as [|y l1].
    + cbn [app]. reflexivity.
    + change ((y :: l1) ++ [self])%list with (y :: l1 ++ [self])%list.
      rewrite join_join_l. rewrite <- app_assoc. reflexivity.
  - apply join_join_r.
  - apply join_join_l.
  - rewrite <- app_assoc.
    destruct l2 as [|y l2]; [reflexivity|].
    change ((y :: l2) ++ [self])%list with (y :: l2 ++ [self])%list.
    apply join_join_r.
Qed.

(** ** [remove_non_alphanumeric] *)

Lemma is_in_app (c : ascii) (a b : string) :
  is_in c (a +:+ b) = is_in c a || is_in c b.
Proof.
  induction a as [|x a IH]; [reflexivity|].
  rewrite append_cons. cbn [is_in]. rewrite IH, orb_assoc. reflexivity.
Qed.

Lemma remove_unfold (c : ascii) (s : string) :
  remove_non_alphanumeric (String c s)
  = if alnum c then String c (remove_non_alphanumeric s)
    else remove_non_alphanumeric s.
Proof. reflexivity. Qed.

Lemma remove_only_alnum (s : string) (c : ascii) :
  is_in c (remove_non_alphanumeric s) = true -> alnum c = true.
Proof.
  induction s as [|x s IH]; [discriminate|].
  rewrite remove_unfold. destruct (alnum x) eqn:E; [|exact IH].
  cbn [is_in]. intros H. apply orb_true_iff in H as [H|H]; [|auto].
  apply Ascii.eqb_eq in H. subst. exact E.
Qed.

Lemma remove_fixed (s : string) :
  (forall c, is_in c s = true -> alnum c = true) ->
  remove_non_alphanumeric s = s.
Proof.
  induction s as [|x s IH]; intros H; [reflexivity|].
  rewrite remove_unfold. rewrite (H x).
  - rewrite IH; [reflexivity|]. intros c Hc. apply H. cbn [is_in].
    rewrite Hc. apply orb_true_r.
  - cbn [is_in]. rewrite Ascii.eqb_refl. reflexivity.
Qed.

(** X16: The result has letters and digits only, keeps them all in their
    order (a string of letters and digits is returned as it is, and the
    method distributes over concatenation), and a second call changes
    nothing. *)
Theorem remove_non_alphanumeric_keeps_letters_and_digits (s t : string) :
  (forall c, is_in c (remove_non_alphanumeric s) = true ->
             is_in c digits || is_in c ascii_letters = true)
  /\ ((forall c, is_in c s = true ->
                 is_in c digits || is_in c ascii_letters = true) ->
      remove_non_alphanumeric s = s)
  /\ remove_non_alphanumeric (s +:+ t)
     = remove_non_alphanumeric s +:+ remove_non_alphanumeric t
  /\ remove_non_alphanumeric (remove_non_alphanumeric s)
     = remove_non_alphanumeric s.
Proof.
  split; [apply remove_only_alnum|]. split; [apply remove_fixed|]. split.
  - induction s as [|x s IH]; [reflexivity|].
    rewrite append_cons, !remove_unfold, IH.
    destruct (alnum x); reflexivity.
  - apply remove_fixed, remove_only_alnum.
Qed.

End StringProofs.

Module FileNameProofs.
Import GSObject AString FileName TextSpec CopyProofs BucketProofs StringProofs.

Local Open Scope string_scope.

(** ** [rsplit] *)

Lemma rsplit_no_dot (s : string) :
  is_in "." s = false -> rsplit s = (s, None).
Proof.
  induction s as [|c s IH]; [reflexivity|]. cbn [is_in rsplit].
  intros H. apply orb_false_iff in H as [Hc Hs]. rewrite (IH Hs).
  rewrite Ascii.eqb_sym, Hc. reflexivity.
Qed.

Lemma rsplit_app (b e : string) :
  is_in "." e = false -> rsplit (b +:+ "." +:+ e) = (b, Some e).
Proof.
  intros He. induction b as [|c b IH].
  - rewrite append_nil. change ("." +:+ e) with (String "." e).
    cbn [rsplit]. rewrite (rsplit_no_dot e He). reflexivity.
  - rewrite append_cons. cbn [rsplit]. rewrite IH. reflexivity.
Qed.

Lemma rsplit_inv (s : string) :
  match rsplit s with
  | (b, None) => s = b /\ is_in "." s = false
  | (b, Some e) => s = b +:+ "." +:+ e /\ is_in "." e = false
  end.
Proof.
  induction s as [|c s IH]; [split; reflexivity|]. cbn [rsplit].
  destruct (rsplit s) as [b [e|]].
  - destruct IH as [-> He]. split; [reflexivity|exact He].
  - destruct IH as [<- Hs]. destruct (Ascii.eqb c ".") eqn:E.
    + apply Ascii.eqb_eq in E. subst c. split; [reflexivity|exact Hs].
    + split; [reflexivity|]. cbn [is_in]. rewrite Ascii.eqb_sym, E, Hs.
      reflexivity.
Qed.

Lemma to_string_suffix (self : FileName) :
  to_string self = basename self +:+ suffix self.
Proof.
  unfold to_string, __str__, suffix.
  destruct (String.eqb (extension self) ""); cbn [negb]; [|reflexivity].
  induction (basename self) as [|c b IH]; [reflexivity|].
  rewrite append_cons, <- IH. reflexivity.
Qed.

Lemma method_no_dot (self : FileName) (v : string) :
  is_in "." v = false -> to_string (method self v) = v +:+ suffix self.
Proof.
  intros H. rewrite to_string_suffix. unfold method, __new__, suffix.
  cbn [basename extension]. rewrite (rsplit_no_dot v H). reflexivity.
Qed.

Lemma method_dot (self : FileName) (a b : string) :
  is_in "." b = false ->
  to_string (method self (a +:+ "." +:+ b)) = a +:+ suffix self.
Proof.
  intros H. rewrite to_string_suffix. unfold method, __new__, suffix.
  cbn [basename extension]. rewrite (rsplit_app a b H). reflexivity.
Qed.

(** X17: [str(FileName(s))] is [s] again, except that a dot at the very end of
    [s] is lost. *)
Theorem to_string_of_new (s : string) :
  (endswith s "." = false -> to_string (__new__ s) = s)
  /\ (forall b, s = b +:+ "." -> to_string (__new__ s) = b)
  /\ is_in "." (extension (__new__ s)) = false.
Proof.
  pose proof (rsplit_inv s) as H. unfold to_string, __str__, __new__.
  cbn [basename extension value]. split; [|split].
  - intros He. destruct (rsplit s) as [b [e|]]; cbn [fst snd].
    + destruct H as [-> _]. destruct e as [|c e].
      * rewrite endswith_app in He. discriminate.
      * reflexivity.
    + destruct H as [<- _]. reflexivity.
  - intros b ->. change (b +:+ ".") with (b +:+ "." +:+ "").
    rewrite rsplit_app by reflexivity. reflexivity.
  - destruct (rsplit s) as [b [e|]]; cbn [snd]; [apply H|reflexivity].
Qed.

(** X18: [append] on a file name keeps the extension.  The new base name is cut
    at its last dot: with a dot in the old base name, or in the appended
    text, what follows that dot is lost. *)
Theorem filename_append_cuts_at_last_dot (name s d : string) :
  let f := __new__ name in
  let text := basename f +:+ d +:+ s in
  let ext := if String.eqb (extension f) "" then ""
             else "." +:+ extension f in
  extension (append f (Str s) d) = extension f
  /\ (is_in "." text = false ->
      to_string (append f (Str s) d) = text +:+ ext)
  /\ (forall a b, text = a +:+ "." +:+ b -> is_in "." b = false ->
      to_string (append f (Str s) d) = a +:+ ext).
Proof.
  intros f text ext. split; [reflexivity|]. split.
  - intros H. exact (method_no_dot f text H).
  - intros a b E H. unfold append, AString.append. cbn [app join].
    change (value f) with (basename f). fold text. rewrite E.
    exact (method_dot f a b H).
Qed.

(** X19: [remove_non_alphanumeric] on a file name cleans the base name and
    leaves the extension as it is. *)
Theorem filename_remove_non_alphanumeric (name : string) :
  let f := __new__ name in
  to_string (remove_non_alphanumeric f)
  = AString.remove_non_alphanumeric (basename f)
    +:+ (if String.eqb (extension f) "" then ""
         else "." +:+ extension f)
  /\ extension (remove_non_alphanumeric f) = extension f.
Proof.
  intros f. split; [|reflexivity].
  apply (method_no_dot f).
  destruct (is_in "." (AString.remove_non_alphanumeric (value f))) eqn:E;
    [|exact E].
  apply remove_only_alnum in E. discriminate.
Qed.

End FileNameProofs.

(** * Properties of the URLs of [WebAPI] *)

Module WebProofs.
Import GSObject AString WebAPI TextSpec CopyProofs BucketProofs StringProofs.

Local Open Scope string_scope.

Lemma append_empty (s : string) : s +:+ "" = s.
Proof.
  induction s as [|c s IH]; [reflexivity|].
  rewrite append_cons, IH. reflexivity.
Qed.

Lemma no_query_app (a b : string) :
  no_query a = false -> no_query (a +:+ b) = false.
Proof.
  unfold no_query. rewrite is_in_app. intros H.
  apply negb_false_iff in H. rewrite H. reflexivity.
Qed.

Lemma loop_with_query (kwargs : dict) (url : string) :
  no_query url = false ->
  foldl (fun url kv =>
           let url := if no_query url then url +:+ "?" else url in
           url +:+ "&" +:+ fst kv +:+ "=" +:+ snd kv)
        url kwargs
  = url +:+ query kwargs.
Proof.
  revert url. induction kwargs as [|kv kwargs IH]; intros url H.
  - cbn. symmetry. apply append_empty.
  - cbn [foldl foldr query]. cbv zeta. rewrite H.
    rewrite IH by (apply no_query_app; exact H).
    rewrite !append_assoc. reflexivity.
Qed.

Lemma startswith_app_l (s t p : string) :
  startswith s p = true -> startswith (s +:+ t) p = true.
Proof.
  intros H. apply startswith_inv in H. rewrite H, append_assoc.
  apply startswith_app.
Qed.

Lemma absolute_app (s t : string) :
  absolute s = true -> absolute (s +:+ t) = true.
Proof.
  unfold absolute. intros H. apply orb_true_iff in H as [H|H];
    rewrite (startswith_app_l _ t _ H); [reflexivity|apply orb_true_r].
Qed.

Lemma query_string_shape (url : string) (kwargs : dict) :
  append_query_string url kwargs
  = url
    +:+ (if no_query url && negb (bool_decide (kwargs = [])) then "?"
         else "")
    +:+ query kwargs.
Proof.
  unfold append_query_string. destruct kwargs as [|kv kwargs].
  - cbn. rewrite andb_false_r. rewrite !append_empty. reflexivity.
  - rewrite bool_decide_eq_false_2 by discriminate. cbn [negb].
    rewrite andb_true_r. destruct (no_query url) eqn:E.
    + rewrite loop_with_query.
      * rewrite append_assoc. reflexivity.
      * unfold no_query. rewrite is_in_app. cbn. rewrite orb_true_r.
        reflexivity.
    + rewrite loop_with_query by exact E. rewrite append_nil. reflexivity.
Qed.

(** X20: The URL with its query string: one question mark is added when the
    URL has none and there are keywords, and every keyword, the first one
    too, is written with a leading [&]. *)
Theorem append_query_string_closed_form (url : string) (kwargs : dict) :
  append_query_string url kwargs
  = url
    +:+ (if no_query url && negb (bool_decide (kwargs = [])) then "?"
         else "")
    +:+ foldr (fun kv q => "&" +:+ fst kv +:+ "=" +:+ snd kv +:+ q)
              "" kwargs.
Proof. apply query_string_shape. Qed.

(** X21: Every URL built by an object whose constructor returned is absolute:
    it starts with [http://] or [https://]; it starts with the URL passed
    in when that one is absolute, and with the base URL followed by it
    otherwise. *)
Theorem build_url_is_absolute (base : string) (defaults : dict)
    (self : WebAPI) (url : string) (kwargs : dict) :
  __init__ base defaults = Return self ->
  let r := build_url self url kwargs in
  (startswith r "http://" || startswith r "https://" = true)
  /\ (startswith url "http://" || startswith url "https://" = true ->
      startswith r url = true)
  /\ (startswith url "http://" || startswith url "https://" = false ->
      startswith r (base +:+ url) = true).
Proof.
  intros H r. unfold __init__ in H.
  destruct (startswith base "http://" || startswith base "https://")
    eqn:Eb; [|discriminate].
  injection H as <-. subst r. unfold build_url. cbn [base_url WebAPI.kwargs].
  rewrite query_string_shape.
  destruct (startswith url "http://" || startswith url "https://") eqn:Eu;
    cbn [negb].
  - split; [|split; [|discriminate]].
    + apply (absolute_app url). exact Eu.
    + intros _. apply startswith_app.
  - split; [|split; [discriminate|]].
    + rewrite !append_assoc. apply (absolute_app base). exact Eb.
    + intros _. apply startswith_app.
Qed.

Lemma build_url_is_absolute_witness :
  let self := {| kwargs := [("key", "K")]; headers := [];
                 base_url := "https://api.example.com" |} in
  let r := build_url self "/v1/items" [("page", "2")] in
  r = "https://api.example.com/v1/items?&key=K&page=2"
  /\ (startswith r "http://" || startswith r "https://" = true).
Proof.
  intros self r. split; [reflexivity|].
  destruct (build_url_is_absolute "https://api.example.com" [("key", "K")]
              self "/v1/items" [("page", "2")] eq_refl) as [H _].
  exact H.
Defined.

End WebProofs.
